(** * NodeResourcesAllocatable: the weighted scorer and the score normalizer

    A shallow embedding of [pkg/noderesources/allocatable.go].  Go's [int64]
    is a [Z] together with the two's-complement wrap-around of every
    arithmetic operation; Go maps are [gmap]s, and a [range] over a map is a
    fold over an arbitrary enumeration of its entries.  A run-time panic is
    [None], an [error] return is the right side of a sum.

    The [Score] method only fetches the node from the snapshot and hands its
    capacities to the scorer closure; loggers and the framework handle carry
    no scoring logic.  They are not represented. *)

From Stdlib Require Import ZArith Lia.
From stdpp Require Import gmap strings list fin_maps.

Local Open Scope Z_scope.

(** ** 64-bit signed integers *)

Definition MaxInt64 : Z := 9223372036854775807.
Definition MinInt64 : Z := -9223372036854775808.

Definition int64 (z : Z) : Prop := MinInt64 <= z <= MaxInt64.

(** Reduction of an exact result to its two's-complement representative. *)
Definition wrap64 (z : Z) : Z := (z + 2 ^ 63) mod 2 ^ 64 - 2 ^ 63.

Definition add64 (a b : Z) : Z := wrap64 (a + b).
Definition sub64 (a b : Z) : Z := wrap64 (a - b).
Definition mul64 (a b : Z) : Z := wrap64 (a * b).

(** Go's [/] on integers truncates toward zero; [MinInt64 / -1] wraps. *)
Definition quot64 (a b : Z) : Z := wrap64 (a ÷ b).

(** A division whose divisor may be zero: Go panics (integer divide by
    zero), which is [None] here. *)
Definition div64 (a b : Z) : option Z :=
  if b =? 0 then None else Some (quot64 a b).

(** ** The imported packages, as far as the plugin uses them *)

Module schedulerconfig.

Record ResourceSpec : Type := { Name : string; Weight : Z }.

End schedulerconfig.

Module config.

(** [type ModeType string] *)
Definition ModeType := string.

Record NodeResourcesAllocatableArgs : Type := {
  Resources : list schedulerconfig.ResourceSpec;
  Mode : ModeType
}.

(** Modelled from the spec: the constant [config.Least] is declared in
    the [apis/config] package, which is not part of the sources at hand;
    the configuration payload spells it ["Least"]. *)
Definition Least : ModeType := "Least"%string.

(** Modelled from the spec: the constant [config.Most], declared next to
    [config.Least]; the configuration payload spells it ["Most"]. *)
Definition Most : ModeType := "Most"%string.

End config.

(** ** The per-resource score *)

(** [func score(logger, capacity int64, mode config.ModeType) int64]; the
    logger only records the unmatched mode. *)
Definition score (capacity : Z) (mode : config.ModeType) : Z :=
  if decide (mode = config.Least) then mul64 (-1) capacity
  else if decide (mode = config.Most) then capacity
  else 0.

(** ** The per-node scorer *)

Abbreviation resourceToWeightMap := (gmap string Z).
Abbreviation resourceToValueMap := (gmap string Z).

(** [allocable[resource]]: a missing key reads as the zero value. *)
Definition value_at (m : resourceToValueMap) (resource : string) : Z :=
  default 0 (m !! resource).

(** The closure [resourceScorer] returns: the code of the function literal
    together with the two variables it captures. *)
Record scorerFunc : Type := {
  captured_resToWeightMap : resourceToWeightMap;
  captured_mode : config.ModeType
}.

Definition resourceScorer (resToWeightMap : resourceToWeightMap)
    (mode : config.ModeType) : scorerFunc :=
  {| captured_resToWeightMap := resToWeightMap; captured_mode := mode |}.

(** A [range] over a Go map visits every entry exactly once, in an order
    the language leaves unspecified: any enumeration of the entries. *)
Definition range_order (m : resourceToWeightMap) (order : list (string * Z)) : Prop :=
  order ≡ₚ map_to_list m.

(** One round of the [range] loop; the accumulator is
    [(nodeScore, weightSum)]. *)
Definition scorer_step (allocable : resourceToValueMap) (mode : config.ModeType)
    (acc : Z * Z) (entry : string * Z) : Z * Z :=
  let resourceScore := score (value_at allocable entry.1) mode in
  (add64 acc.1 (mul64 resourceScore entry.2), add64 acc.2 entry.2).

Definition scorer_loop (order : list (string * Z))
    (allocable : resourceToValueMap) (mode : config.ModeType) : Z * Z :=
  foldl (scorer_step allocable mode) (0, 0) order.

(** Calling the closure on [(requested, allocable)]; [order] is the
    enumeration of the captured map this call happens to range over.
    [None] is the run-time panic of an integer division by zero. *)
Definition scorer_call (f : scorerFunc) (order : list (string * Z))
    (requested allocable : resourceToValueMap) : option Z :=
  let '(nodeScore, weightSum) := scorer_loop order allocable (captured_mode f) in
  div64 nodeScore weightSum.

(** ** The framework's score list *)

Module framework.

Record NodeScore : Type := { Name : string; Score : Z }.

Abbreviation NodeScoreList := (list NodeScore).

(** Modelled from the spec: [MinNodeScore] is a constant of the
    scheduling framework, outside the sources at hand; the spec's
    scenarios fix it as [MinScore = 0]. *)
Definition MinNodeScore : Z := 0.

(** Modelled from the spec: [MaxNodeScore], the framework's other bound;
    the spec's scenarios fix it as [MaxScore = 100]. *)
Definition MaxNodeScore : Z := 100.

End framework.

(** The first loop of [NormalizeScore]: the accumulator is
    [(highest, lowest)]. *)
Definition highest_lowest_step (acc : Z * Z) (nodeScore : framework.NodeScore) : Z * Z :=
  let highest := if framework.Score nodeScore >? acc.1 then framework.Score nodeScore else acc.1 in
  let lowest := if framework.Score nodeScore <? acc.2 then framework.Score nodeScore else acc.2 in
  (highest, lowest).

Definition highest_lowest (scores : framework.NodeScoreList) : Z * Z :=
  foldl highest_lowest_step (- MaxInt64, MaxInt64) scores.

(** [NormalizeScore] rewrites [scores[i].Score] in place and returns a nil
    status; the function below gives the list after the call.  The division
    is guarded by [oldRange == 0], so it cannot panic. *)
Definition NormalizeScore (scores : framework.NodeScoreList) : framework.NodeScoreList :=
  let '(highest, lowest) := highest_lowest scores in
  let oldRange := sub64 highest lowest in
  let newRange := sub64 framework.MaxNodeScore framework.MinNodeScore in
  map (fun nodeScore =>
         if oldRange =? 0 then
           {| framework.Name := framework.Name nodeScore;
              framework.Score := framework.MinNodeScore |}
         else
           {| framework.Name := framework.Name nodeScore;
              framework.Score :=
                add64 (quot64 (mul64 (sub64 (framework.Score nodeScore) lowest) newRange)
                              oldRange)
                      framework.MinNodeScore |})
      scores.

(** ** Construction *)

(** The errors of construction.  [WeightNotPositive name weight] is
    [fmt.Errorf("resource Weight of %v should be a positive value, got %v",
    name, weight)]; [WrongArgsType] is the failed type assertion;
    [ConfigurationError] is the validation package's rejection. *)
Inductive error : Type :=
  | WeightNotPositive (name : string) (weight : Z)
  | WrongArgsType (got : string)
  | ConfigurationError (resource : string) (weight : Z).

Fixpoint validateResources (resources : list schedulerconfig.ResourceSpec) : option error :=
  match resources with
  | [] => None
  | resource :: rest =>
      if schedulerconfig.Weight resource <=? 0 then
        Some (WeightNotPositive (schedulerconfig.Name resource)
                                (schedulerconfig.Weight resource))
      else validateResources rest
  end.

Module validation.

(** Modelled from the spec: [ValidateNodeResourcesAllocatableArgs] lives
    in the [apis/config/validation] package, which is not part of the
    sources at hand.  The spec gives its failure condition as "any
    supplied weight ≤ 0", the failure being a [ConfigurationError] naming
    the offending resource and its invalid weight. *)
Definition ValidateNodeResourcesAllocatableArgs
    (a : config.NodeResourcesAllocatableArgs) : option error :=
  match list_find (fun resource => schedulerconfig.Weight resource <= 0)
                  (config.Resources a) with
  | Some (_, resource) =>
      Some (ConfigurationError (schedulerconfig.Name resource)
                               (schedulerconfig.Weight resource))
  | None => None
  end.

End validation.

Module runtime.

(** A [runtime.Object] handed to the factory: nil, the plugin's own
    argument type, or a value of some other type.  An interface value
    that wraps a nil pointer is not represented. *)
Inductive Object : Type :=
  | Nil
  | OfNodeResourcesAllocatableArgs (a : config.NodeResourcesAllocatableArgs)
  | OfOtherType (typeName : string).

End runtime.

Definition AllocatableName : string := "NodeResourcesAllocatable".

Module resourceAllocationScorer.

Record t : Type := {
  Name : string;
  scorer : scorerFunc;
  resourceToWeightMap : gmap string Z
}.

End resourceAllocationScorer.

(** The plugin value; its logger and framework handle are opaque to the
    scoring logic and left out. *)
Record Allocatable : Type := {
  embedded : resourceAllocationScorer.t
}.

(** [resToWeightMap[v1.ResourceName(resource.Name)] = resource.Weight] for
    each listed resource, in list order: a later duplicate overwrites. *)
Definition fill_resToWeightMap (resources : list schedulerconfig.ResourceSpec)
    : resourceToWeightMap :=
  foldl (fun m resource =>
           <[schedulerconfig.Name resource := schedulerconfig.Weight resource]> m)
        ∅ resources.

Section Construction.

(** The package-level default table is declared in another file of the
    package; construction is parametric in it. *)
Variable defaultResourcesToWeightMap : resourceToWeightMap.

Definition NewAllocatable (allocArgs : runtime.Object) : Allocatable + error :=
  (* var mode config.ModeType: the zero value of a string type *)
  let mode : config.ModeType := ""%string in
  let resToWeightMap := defaultResourcesToWeightMap in
  let build (resToWeightMap : resourceToWeightMap) (mode : config.ModeType) :=
    {| embedded :=
         {| resourceAllocationScorer.Name := AllocatableName;
            resourceAllocationScorer.scorer := resourceScorer resToWeightMap mode;
            resourceAllocationScorer.resourceToWeightMap := resToWeightMap |} |} in
  match allocArgs with
  | runtime.Nil => inl (build resToWeightMap mode)
  | runtime.OfOtherType typeName => inr (WrongArgsType typeName)
  | runtime.OfNodeResourcesAllocatableArgs a =>
      let a :=
        if decide (config.Mode a = ""%string)
        then {| config.Resources := config.Resources a; config.Mode := config.Least |}
        else a in
      match validation.ValidateNodeResourcesAllocatableArgs a with
      | Some err => inr err
      | None =>
          let resToWeightMap :=
            if (0 <? length (config.Resources a))%nat
            then fill_resToWeightMap (config.Resources a)
            else resToWeightMap in
          inl (build resToWeightMap (config.Mode a))
      end
  end.

End Construction.

(** ** Vocabulary of the statements *)

Definition Zsum (l : list Z) : Z := foldr Z.add 0 l.

(** The sign a mode gives to a capacity. *)
Definition mode_sign (mode : config.ModeType) : Z :=
  if decide (mode = config.Least) then -1
  else if decide (mode = config.Most) then 1
  else 0.

(** The exact (unbounded) weighted sum and weight sum over an enumeration. *)
Definition weighted_terms (allocable : resourceToValueMap) (s : Z)
    (order : list (string * Z)) : list Z :=
  map (fun entry => s * value_at allocable entry.1 * entry.2) order.

Definition weights_of (order : list (string * Z)) : list Z := map snd order.

(** The exact sums the spec speaks of, over the configured resources. *)
Definition weighted_total (s : Z) (allocable : resourceToValueMap)
    (m : resourceToWeightMap) : Z :=
  Zsum (weighted_terms allocable s (map_to_list m)).

Definition weight_total (m : resourceToWeightMap) : Z :=
  Zsum (weights_of (map_to_list m)).

(** The lowest and the highest raw score of a list. *)
Definition is_lowest (lo : Z) (scores : framework.NodeScoreList) : Prop :=
  (exists nodeScore, nodeScore ∈ scores /\ framework.Score nodeScore = lo)
  /\ forall nodeScore, nodeScore ∈ scores -> lo <= framework.Score nodeScore.

Definition is_highest (hi : Z) (scores : framework.NodeScoreList) : Prop :=
  (exists nodeScore, nodeScore ∈ scores /\ framework.Score nodeScore = hi)
  /\ forall nodeScore, nodeScore ∈ scores -> framework.Score nodeScore <= hi.

Definition raw_int64 (scores : framework.NodeScoreList) : Prop :=
  Forall (fun nodeScore => int64 (framework.Score nodeScore)) scores.

Definition with_score (score : Z) (nodeScore : framework.NodeScore) : framework.NodeScore :=
  {| framework.Name := framework.Name nodeScore; framework.Score := score |}.

(** The linear rescaling of the spec, in exact integer arithmetic. *)
Definition rescale (lo hi : Z) (nodeScore : framework.NodeScore) : framework.NodeScore :=
  with_score ((framework.Score nodeScore - lo)
                * (framework.MaxNodeScore - framework.MinNodeScore) ÷ (hi - lo)
              + framework.MinNodeScore)
             nodeScore.

(** ** Concrete data of the scenarios *)

(** Modelled from the spec: the default table itself is declared outside the
    sources at hand; the spec describes it as a fixed set of common resource
    types, each of weight 1. *)
Definition spec_defaultResourcesToWeightMap : resourceToWeightMap :=
  <["cpu"%string := 1]> (<["memory"%string := 1]> ∅).

Definition nodeA : resourceToValueMap :=
  <["cpu"%string := 4]> (<["memory"%string := 8]> ∅).

Definition nodeB : resourceToValueMap :=
  <["cpu"%string := 2]> (<["memory"%string := 2]> ∅).

(** A node whose two capacities are [2 ^ 62] each. *)
Definition hugeNode : resourceToValueMap :=
  <["cpu"%string := 4611686018427387904]> (<["memory"%string := 4611686018427387904]> ∅).

(** The raw score lists of the scenarios, and lists of wide spread. *)
Definition rawLeast : framework.NodeScoreList :=
  [ {| framework.Name := "A"; framework.Score := -6 |};
    {| framework.Name := "B"; framework.Score := -2 |} ].

Definition rawMost : framework.NodeScoreList :=
  [ {| framework.Name := "A"; framework.Score := 6 |};
    {| framework.Name := "B"; framework.Score := 2 |} ].

Definition normalizedMost : framework.NodeScoreList :=
  [ {| framework.Name := "A"; framework.Score := 100 |};
    {| framework.Name := "B"; framework.Score := 0 |} ].

Definition rawSingle : framework.NodeScoreList :=
  [ {| framework.Name := "A"; framework.Score := -6 |} ].

(** Raw scores [0] and [2 ^ 62]. *)
Definition rawSpread62 : framework.NodeScoreList :=
  [ {| framework.Name := "A"; framework.Score := 0 |};
    {| framework.Name := "B"; framework.Score := 4611686018427387904 |} ].

(** Raw scores [0] and [2 ^ 61]. *)
Definition rawSpread61 : framework.NodeScoreList :=
  [ {| framework.Name := "A"; framework.Score := 0 |};
    {| framework.Name := "B"; framework.Score := 2305843009213693952 |} ].

(** A single weighted resource and two nodes of capacities [2 ^ 61] and
    [2 ^ 62]. *)
Definition cpuWeight2 : resourceToWeightMap := <["cpu"%string := 2]> ∅.

Definition node61 : resourceToValueMap := <["cpu"%string := 2305843009213693952]> ∅.

Definition node62 : resourceToValueMap := <["cpu"%string := 4611686018427387904]> ∅.

Definition nodeCpu2 : resourceToValueMap := <["cpu"%string := 2]> ∅.

Definition nodeCpu4 : resourceToValueMap := <["cpu"%string := 4]> ∅.

(** Argument objects: four resources of weight [2 ^ 62] each, and a list
    with a zero weight. *)
Definition heavyArgs : config.NodeResourcesAllocatableArgs :=
  {| config.Resources :=
       [ {| schedulerconfig.Name := "a"; schedulerconfig.Weight := 4611686018427387904 |};
         {| schedulerconfig.Name := "b"; schedulerconfig.Weight := 4611686018427387904 |};
         {| schedulerconfig.Name := "c"; schedulerconfig.Weight := 4611686018427387904 |};
         {| schedulerconfig.Name := "d"; schedulerconfig.Weight := 4611686018427387904 |} ];
     config.Mode := config.Least |}.

(** The weight map [NewAllocatable] builds from [heavyArgs]. *)
Definition heavyWeights : resourceToWeightMap :=
  fill_resToWeightMap (config.Resources heavyArgs).

Definition zeroWeightArgs : config.NodeResourcesAllocatableArgs :=
  {| config.Resources :=
       [ {| schedulerconfig.Name := "cpu"; schedulerconfig.Weight := 1 |};
         {| schedulerconfig.Name := "memory"; schedulerconfig.Weight := 0 |} ];
     config.Mode := config.Least |}.

(** ** Vocabulary of the further properties *)

(** The weight a resource list gives to [name]: that of its last entry so
    named, if any. *)
Definition listed_weight (name : string)
    (resources : list schedulerconfig.ResourceSpec) : option Z :=
  schedulerconfig.Weight
    <$> last (filter (fun resource => schedulerconfig.Name resource = name) resources).

(** Every raw score [x] replaced by [k * x + c]. *)
Definition affine (k c : Z) (scores : framework.NodeScoreList) : framework.NodeScoreList :=
  map (fun nodeScore => with_score (k * framework.Score nodeScore + c) nodeScore) scores.

(** No two raw scores are so far apart that the rescaling product leaves
    [int64]. *)
Definition spread_fits (scores : framework.NodeScoreList) : Prop :=
  forall a b, a ∈ scores -> b ∈ scores ->
    (framework.Score a - framework.Score b)
      * (framework.MaxNodeScore - framework.MinNodeScore) <= MaxInt64.

(** A resource list that names [cpu] twice, and no [memory]. *)
Definition repeatedArgs : config.NodeResourcesAllocatableArgs :=
  {| config.Resources :=
       [ {| schedulerconfig.Name := "cpu"; schedulerconfig.Weight := 1 |};
         {| schedulerconfig.Name := "gpu"; schedulerconfig.Weight := 2 |};
         {| schedulerconfig.Name := "cpu"; schedulerconfig.Weight := 3 |} ];
     config.Mode := "" |}.

(** Raw scores with a tie and a middle value. *)
Definition rawThree : framework.NodeScoreList :=
  [ {| framework.Name := "A"; framework.Score := 10 |};
    {| framework.Name := "B"; framework.Score := 13 |};
    {| framework.Name := "C"; framework.Score := 20 |} ].

(** A node that also reports a resource no weight is configured for. *)
Definition nodeA_gpu : resourceToValueMap := <["gpu"%string := 7]> nodeA.

(** * Properties *)

(** Linear arithmetic over the bounds of [int64]. *)
Ltac int64_lia := unfold int64, MinInt64, MaxInt64 in *; lia.

(** Membership in a literal list, one element after the other. *)
Ltac elem_of_literal Hin tac :=
  repeat (apply elem_of_cons in Hin as [-> | Hin]; [tac |]);
  by apply elem_of_nil in Hin.

(** ** Wrap-around arithmetic *)

Lemma wrap64_mod z : wrap64 z mod 2 ^ 64 = z mod 2 ^ 64.
Proof.
  unfold wrap64.
  rewrite Zminus_mod, Zmod_mod, <- Zminus_mod.
  f_equal. lia.
Qed.

Lemma wrap64_congr a b : a mod 2 ^ 64 = b mod 2 ^ 64 -> wrap64 a = wrap64 b.
Proof.
  intros H. unfold wrap64.
  rewrite (Zplus_mod a), (Zplus_mod b), H. reflexivity.
Qed.

Lemma wrap64_id z : int64 z -> wrap64 z = z.
Proof.
  unfold int64, MinInt64, MaxInt64, wrap64. intros H.
  rewrite Z.mod_small; lia.
Qed.

Lemma wrap64_int64 z : int64 (wrap64 z).
Proof.
  unfold int64, MinInt64, MaxInt64, wrap64.
  pose proof (Z.mod_pos_bound (z + 2 ^ 63) (2 ^ 64) ltac:(lia)). lia.
Qed.

Lemma wrap64_add_l a b : wrap64 (wrap64 a + b) = wrap64 (a + b).
Proof.
  apply wrap64_congr.
  rewrite Zplus_mod, wrap64_mod, <- Zplus_mod. reflexivity.
Qed.

Lemma wrap64_add_r a b : wrap64 (a + wrap64 b) = wrap64 (a + b).
Proof. rewrite Z.add_comm, wrap64_add_l. f_equal. lia. Qed.

Lemma wrap64_mul_l a b : wrap64 (wrap64 a * b) = wrap64 (a * b).
Proof.
  apply wrap64_congr.
  rewrite Zmult_mod, wrap64_mod, <- Zmult_mod. reflexivity.
Qed.

Lemma wrap64_mul_r a b : wrap64 (a * wrap64 b) = wrap64 (a * b).
Proof. rewrite Z.mul_comm, wrap64_mul_l. f_equal. lia. Qed.

Lemma wrap64_0 : wrap64 0 = 0.
Proof. reflexivity. Qed.

(** ** The scorer loop computes two sums modulo [2 ^ 64] *)

Lemma Zsum_Permutation l1 l2 : l1 ≡ₚ l2 -> Zsum l1 = Zsum l2.
Proof.
  induction 1 as [| x l1 l2 _ IH | x y l | l1 l2 l3 _ IH1 _ IH2]; simpl; lia.
Qed.

Lemma score_mode_sign capacity mode :
  wrap64 (score capacity mode) = wrap64 (mode_sign mode * capacity).
Proof.
  unfold score, mode_sign, mul64.
  repeat case_decide; try reflexivity.
  - apply wrap64_congr. apply wrap64_mod.
  - f_equal. lia.
Qed.

Lemma scorer_loop_from n w order allocable mode :
  foldl (scorer_step allocable mode) (wrap64 n, wrap64 w) order
  = (wrap64 (n + Zsum (weighted_terms allocable (mode_sign mode) order)),
     wrap64 (w + Zsum (weights_of order))).
Proof.
  revert n w. induction order as [| [resource weight] order IH]; intros n w; simpl.
  - by rewrite !Z.add_0_r.
  - unfold scorer_step at 2. simpl. unfold add64, mul64.
    assert (wrap64 (wrap64 n + wrap64 (score (value_at allocable resource) mode * weight))
            = wrap64 (n + mode_sign mode * value_at allocable resource * weight)) as ->.
    { rewrite wrap64_add_l, wrap64_add_r.
      rewrite <- (wrap64_add_r n (score _ _ * _)), <- wrap64_mul_l, score_mode_sign.
      by rewrite wrap64_mul_l, wrap64_add_r. }
    rewrite wrap64_add_l, IH.
    by rewrite <- !Z.add_assoc.
Qed.

Lemma scorer_loop_sums order allocable mode :
  scorer_loop order allocable mode
  = (wrap64 (Zsum (weighted_terms allocable (mode_sign mode) order)),
     wrap64 (Zsum (weights_of order))).
Proof.
  unfold scorer_loop.
  pose proof (scorer_loop_from 0 0 order allocable mode) as H.
  by rewrite wrap64_0 in H.
Qed.

Lemma weighted_terms_Permutation allocable s l1 l2 :
  l1 ≡ₚ l2 -> weighted_terms allocable s l1 ≡ₚ weighted_terms allocable s l2.
Proof. intros H. unfold weighted_terms. by rewrite H. Qed.

Lemma weights_of_Permutation l1 l2 : l1 ≡ₚ l2 -> weights_of l1 ≡ₚ weights_of l2.
Proof. intros H. unfold weights_of. by rewrite H. Qed.

Lemma scorer_loop_Permutation l1 l2 allocable mode :
  l1 ≡ₚ l2 -> scorer_loop l1 allocable mode = scorer_loop l2 allocable mode.
Proof.
  intros H. rewrite !scorer_loop_sums.
  rewrite (Zsum_Permutation _ _ (weighted_terms_Permutation allocable _ _ _ H)).
  rewrite (Zsum_Permutation _ _ (weights_of_Permutation _ _ H)).
  reflexivity.
Qed.

(** C9. The per-node scorer is deterministic: for a fixed closure and fixed
    arguments, any two enumerations of the captured weight map that a
    [range] may produce give the same result, be it a score or the
    division panic. *)
Theorem scorer_call_order_irrelevant (f : scorerFunc)
    (requested allocable : resourceToValueMap) (order1 order2 : list (string * Z)) :
  range_order (captured_resToWeightMap f) order1 ->
  range_order (captured_resToWeightMap f) order2 ->
  scorer_call f order1 requested allocable = scorer_call f order2 requested allocable.
Proof.
  unfold range_order, scorer_call. intros H1 H2.
  rewrite (scorer_loop_Permutation order1 order2); [reflexivity |].
  by rewrite H1, H2.
Qed.

Lemma scorer_call_order_irrelevant_reverse :
  scorer_call (resourceScorer spec_defaultResourcesToWeightMap config.Least)
              (map_to_list spec_defaultResourcesToWeightMap) ∅ nodeA
  = scorer_call (resourceScorer spec_defaultResourcesToWeightMap config.Least)
                (reverse (map_to_list spec_defaultResourcesToWeightMap)) ∅ nodeA.
Proof.
  apply scorer_call_order_irrelevant; unfold range_order; simpl.
  - reflexivity.
  - apply reverse_Permutation.
Defined.

(** ** The scorer as a weighted average *)

Lemma Zsum_positive l : l <> [] -> Forall (fun w => 0 < w) l -> 0 < Zsum l.
Proof.
  intros Hne Hpos. destruct Hpos as [| w l Hw Hl]; [done |].
  clear Hne. simpl.
  enough (0 <= Zsum l) by lia.
  induction Hl; simpl; lia.
Qed.

Lemma weight_total_positive (m : resourceToWeightMap) :
  m <> ∅ -> map_Forall (fun _ weight => 0 < weight) m -> 0 < weight_total m.
Proof.
  intros Hne Hpos. apply Zsum_positive.
  - unfold weights_of. intros Hnil. apply Hne, map_to_list_empty_iff.
    by destruct (map_to_list m).
  - unfold weights_of. apply Forall_fmap, Forall_forall.
    intros [resource weight] Hin. simpl.
    apply elem_of_map_to_list in Hin. by apply (Hpos resource).
Qed.

Lemma quot_int64 a b : int64 a -> 0 < b -> int64 (a ÷ b).
Proof.
  unfold int64, MinInt64, MaxInt64. intros Ha Hb.
  destruct (Z_le_gt_dec 0 a) as [Hpos | Hneg].
  - pose proof (Z.quot_pos a b Hpos Hb).
    pose proof (Z.quot_le_upper_bound a b a Hb ltac:(nia)). lia.
  - pose proof (Z.quot_opp_l a b ltac:(lia)) as Hopp.
    pose proof (Z.quot_pos (- a) b ltac:(lia) Hb).
    pose proof (Z.quot_le_upper_bound (- a) b (- a) Hb ltac:(nia)). lia.
Qed.

(** The scorer on any enumeration of [m], when neither exact sum leaves the
    [int64] range. *)
Lemma scorer_call_exact (m : resourceToWeightMap) (mode : config.ModeType)
    (requested allocable : resourceToValueMap) (order : list (string * Z)) :
  range_order m order ->
  0 < weight_total m ->
  int64 (weight_total m) ->
  int64 (weighted_total (mode_sign mode) allocable m) ->
  scorer_call (resourceScorer m mode) order requested allocable
  = Some (weighted_total (mode_sign mode) allocable m ÷ weight_total m).
Proof.
  unfold range_order, scorer_call. intros Hord Hpos Hw Hn. simpl.
  rewrite (scorer_loop_Permutation _ _ allocable mode Hord), scorer_loop_sums.
  fold (weighted_total (mode_sign mode) allocable m). fold (weight_total m).
  rewrite (wrap64_id _ Hw), (wrap64_id _ Hn).
  unfold div64, quot64.
  destruct (Z.eqb_spec (weight_total m) 0) as [Hz | _]; [lia |].
  f_equal. apply wrap64_id. by apply quot_int64.
Qed.

(** C1 (amended). For a non-empty weight map with positive weights and
    mode [Least] ([s = -1]) or [Most] ([s = 1]), whenever the exact sum of
    the weights and the exact sum of [s * capacity * weight] both fit in
    [int64], the scorer returns the truncated quotient of the two sums; a
    resource absent from the capacity map counts as capacity 0. *)
Theorem scorer_call_weighted_average (m : resourceToWeightMap) (mode : config.ModeType)
    (s : Z) (requested allocable : resourceToValueMap) (order : list (string * Z)) :
  (mode = config.Least /\ s = -1) \/ (mode = config.Most /\ s = 1) ->
  m <> ∅ ->
  map_Forall (fun _ weight => 0 < weight) m ->
  int64 (weight_total m) ->
  int64 (weighted_total s allocable m) ->
  range_order m order ->
  scorer_call (resourceScorer m mode) order requested allocable
  = Some (weighted_total s allocable m ÷ weight_total m).
Proof.
  intros Hmode Hne Hpos Hw Hn Hord.
  assert (s = mode_sign mode) as ->.
  { by destruct Hmode as [[-> ->] | [-> ->]]. }
  apply scorer_call_exact; [done | by apply weight_total_positive | done | done].
Qed.

(** Side conditions on the concrete weight table of the scenarios. *)
Lemma spec_default_nonempty : spec_defaultResourcesToWeightMap <> ∅.
Proof. apply insert_non_empty. Qed.

Lemma spec_default_positive :
  map_Forall (fun _ weight => 0 < weight) spec_defaultResourcesToWeightMap.
Proof.
  unfold spec_defaultResourcesToWeightMap.
  repeat (apply map_Forall_insert_2; [lia |]). apply map_Forall_empty.
Qed.

(** The scenario of the spec: under [Least] with weights [{cpu: 1,
    memory: 1}], node A with [{cpu: 4, memory: 8}] scores [-6]. *)
Lemma scorer_call_weighted_average_nodeA :
  scorer_call (resourceScorer spec_defaultResourcesToWeightMap config.Least)
              (map_to_list spec_defaultResourcesToWeightMap) ∅ nodeA
  = Some (-6).
Proof.
  rewrite (scorer_call_weighted_average spec_defaultResourcesToWeightMap
             config.Least (-1) ∅ nodeA (map_to_list spec_defaultResourcesToWeightMap)).
  - vm_compute. reflexivity.
  - left. split; reflexivity.
  - exact spec_default_nonempty.
  - exact spec_default_positive.
  - vm_compute. split; discriminate.
  - vm_compute. split; discriminate.
  - unfold range_order. reflexivity.
Defined.

(** Node B with [{cpu: 2, memory: 2}] scores [-2]. *)
Lemma scorer_call_nodeB :
  scorer_call (resourceScorer spec_defaultResourcesToWeightMap config.Least)
              (map_to_list spec_defaultResourcesToWeightMap) ∅ nodeB
  = Some (-2).
Proof. vm_compute. reflexivity. Qed.

(** Under [Most] the same nodes score [6] and [2]. *)
Lemma scorer_call_Most_nodes :
  scorer_call (resourceScorer spec_defaultResourcesToWeightMap config.Most)
              (map_to_list spec_defaultResourcesToWeightMap) ∅ nodeA = Some 6
  /\ scorer_call (resourceScorer spec_defaultResourcesToWeightMap config.Most)
                 (map_to_list spec_defaultResourcesToWeightMap) ∅ nodeB = Some 2.
Proof. split; vm_compute; reflexivity. Qed.

(** C1 as stated fails once a sum leaves the [int64] range.  With weights
    [{cpu: 1, memory: 1}] (both positive) under [Most], a node of
    capacities [2 ^ 62] and [2 ^ 62] has the exact quotient [2 ^ 62], but
    the accumulated sum wraps to [- 2 ^ 63] and the scorer returns
    [- 2 ^ 62].  With four positive weights of [2 ^ 62] the accumulated
    weight sum wraps to [0] and the scorer returns nothing: the division
    panics. *)
Lemma scorer_call_weighted_average_overflow :
  (map_Forall (fun _ weight => 0 < weight) spec_defaultResourcesToWeightMap
   /\ map_Forall (fun _ capacity => int64 capacity) hugeNode
   /\ weighted_total 1 hugeNode spec_defaultResourcesToWeightMap
        ÷ weight_total spec_defaultResourcesToWeightMap = 4611686018427387904
   /\ scorer_call (resourceScorer spec_defaultResourcesToWeightMap config.Most)
                  (map_to_list spec_defaultResourcesToWeightMap) ∅ hugeNode
      = Some (-4611686018427387904)
   /\ scorer_call (resourceScorer spec_defaultResourcesToWeightMap config.Most)
                  (map_to_list spec_defaultResourcesToWeightMap) ∅ hugeNode
      <> Some (weighted_total 1 hugeNode spec_defaultResourcesToWeightMap
                 ÷ weight_total spec_defaultResourcesToWeightMap))
  /\ (map_Forall (fun _ weight => int64 weight /\ 0 < weight) heavyWeights
      /\ scorer_call (resourceScorer heavyWeights config.Least)
                     (map_to_list heavyWeights) ∅ nodeA = None).
Proof.
  split.
  - split; [exact spec_default_positive |].
    split.
    { unfold hugeNode.
      repeat (apply map_Forall_insert_2; [by vm_compute |]). apply map_Forall_empty. }
    split; [by vm_compute |].
    split; [by vm_compute |].
    by vm_compute.
  - split; [| by vm_compute].
    unfold heavyWeights, fill_resToWeightMap. simpl.
    repeat (apply map_Forall_insert_2; [by vm_compute |]). apply map_Forall_empty.
Qed.

(** ** The normalizer: what the first loop finds *)

Lemma highest_lowest_from scores : forall h l,
  let r := foldl highest_lowest_step (h, l) scores in
  (h <= r.1 /\ r.2 <= l)
  /\ (forall nodeScore, nodeScore ∈ scores ->
        r.2 <= framework.Score nodeScore <= r.1)
  /\ (r.1 = h \/ exists nodeScore, nodeScore ∈ scores /\ framework.Score nodeScore = r.1)
  /\ (r.2 = l \/ exists nodeScore, nodeScore ∈ scores /\ framework.Score nodeScore = r.2).
Proof.
  induction scores as [| x scores IH]; intros h l; simpl.
  - split; [lia |]. split; [| split; by left].
    intros nodeScore Hin. by apply elem_of_nil in Hin.
  - unfold highest_lowest_step at 2 4 6 8 10 12 14 16. simpl.
    set (h1 := if framework.Score x >? h then framework.Score x else h).
    set (l1 := if framework.Score x <? l then framework.Score x else l).
    assert (h <= h1 /\ framework.Score x <= h1 /\ (h1 = h \/ h1 = framework.Score x)) as Hh1.
    { subst h1. destruct (Z.gtb_spec (framework.Score x) h); lia. }
    assert (l1 <= l /\ l1 <= framework.Score x /\ (l1 = l \/ l1 = framework.Score x)) as Hl1.
    { subst l1. destruct (Z.ltb_spec (framework.Score x) l); lia. }
    destruct (IH h1 l1) as [[Ha Hb] [Hall [Hh Hl]]].
    clearbody h1 l1.
    split; [lia |]. split; [| split].
    + intros nodeScore Hin.
      apply elem_of_cons in Hin as [-> | Hin]; [lia | by apply Hall].
    + destruct Hh as [Hh | [ns [Hin Hns]]].
      * destruct Hh1 as (_ & _ & [Heq | Heq]); [left; lia |].
        right. exists x. split; [apply list_elem_of_here | lia].
      * right. exists ns. split; [by apply list_elem_of_further | done].
    + destruct Hl as [Hl | [ns [Hin Hns]]].
      * destruct Hl1 as (_ & _ & [Heq | Heq]); [left; lia |].
        right. exists x. split; [apply list_elem_of_here | lia].
      * right. exists ns. split; [by apply list_elem_of_further | done].
Qed.

(** On [int64] scores the loop finds the lowest score, and the highest one
    unless every score is [MinInt64], which the initial [-MaxInt64] beats. *)
Lemma highest_lowest_spec scores lo hi :
  raw_int64 scores -> is_lowest lo scores -> is_highest hi scores ->
  highest_lowest scores = (Z.max (- MaxInt64) hi, lo).
Proof.
  intros Hint [[nl [Hnl Hlo]] Hlow] [[nh [Hnh Hhi]] Hhigh].
  unfold highest_lowest.
  pose proof (highest_lowest_from scores (- MaxInt64) MaxInt64) as H.
  destruct (foldl highest_lowest_step (- MaxInt64, MaxInt64) scores) as [h l].
  simpl in H. destruct H as [[Ha Hb] [Hall [Hh Hl]]].
  pose proof (Hall _ Hnl) as Hbl. pose proof (Hall _ Hnh) as Hbh.
  unfold raw_int64 in Hint. rewrite Forall_forall in Hint.
  pose proof (Hint _ Hnl) as Hil. unfold int64 in Hil.
  f_equal.
  - destruct Hh as [-> | [ns [Hin Hns]]]; [lia |].
    specialize (Hhigh _ Hin). lia.
  - destruct Hl as [-> | [ns [Hin Hns]]]; [lia |].
    specialize (Hlow _ Hin). lia.
Qed.

Lemma lowest_highest_exist scores :
  scores <> [] -> exists lo hi, is_lowest lo scores /\ is_highest hi scores.
Proof.
  induction scores as [| x scores IH]; [done | intros _].
  destruct scores as [| y scores].
  - exists (framework.Score x), (framework.Score x).
    split; (split; [exists x; split; [apply list_elem_of_here | done] |]);
      intros ns Hin; apply list_elem_of_singleton in Hin as ->; lia.
  - destruct (IH ltac:(done)) as (lo & hi & [[nl [Hnl Hlo]] Hlow] & [[nh [Hnh Hhi]] Hhigh]).
    exists (Z.min (framework.Score x) lo), (Z.max (framework.Score x) hi).
    split; split.
    + destruct (Z.min_spec (framework.Score x) lo) as [[_ ->] | [_ ->]].
      * exists x. split; [apply list_elem_of_here | done].
      * exists nl. split; [by apply list_elem_of_further | done].
    + intros ns Hin. apply elem_of_cons in Hin as [-> | Hin]; [lia |].
      specialize (Hlow _ Hin). lia.
    + destruct (Z.max_spec (framework.Score x) hi) as [[_ ->] | [_ ->]].
      * exists nh. split; [by apply list_elem_of_further | done].
      * exists x. split; [apply list_elem_of_here | done].
    + intros ns Hin. apply elem_of_cons in Hin as [-> | Hin]; [lia |].
      specialize (Hhigh _ Hin). lia.
Qed.

(** ** The normalizer: what the second loop writes *)

Lemma newRange_value : sub64 framework.MaxNodeScore framework.MinNodeScore = 100.
Proof. reflexivity. Qed.

(** One element of the second loop when nothing overflows. *)
Lemma rescale_exact lo hi x :
  lo <= x <= hi -> lo < hi ->
  (hi - lo) * (framework.MaxNodeScore - framework.MinNodeScore) <= MaxInt64 ->
  add64 (quot64 (mul64 (sub64 x lo) 100) (sub64 hi lo)) framework.MinNodeScore
  = (x - lo) * (framework.MaxNodeScore - framework.MinNodeScore) ÷ (hi - lo)
    + framework.MinNodeScore
  /\ framework.MinNodeScore
     <= (x - lo) * (framework.MaxNodeScore - framework.MinNodeScore) ÷ (hi - lo)
        + framework.MinNodeScore
     <= framework.MaxNodeScore.
Proof.
  unfold framework.MaxNodeScore, framework.MinNodeScore, MaxInt64.
  intros Hx Hlt Hfit.
  replace (100 - 0) with 100 in * by lia.
  assert (0 <= (x - lo) * 100 ÷ (hi - lo) <= 100) as Hq.
  { split.
    - apply Z.quot_pos; lia.
    - apply Z.quot_le_upper_bound; lia. }
  split; [| lia].
  unfold add64, quot64, mul64, sub64.
  rewrite (wrap64_id (x - lo)) by int64_lia.
  rewrite (wrap64_id (hi - lo)) by int64_lia.
  rewrite (wrap64_id ((x - lo) * 100)) by (unfold int64, MinInt64, MaxInt64; nia).
  rewrite (wrap64_id (_ ÷ _)) by int64_lia.
  apply wrap64_id. int64_lia.
Qed.

Lemma NormalizeScore_rescale scores lo hi :
  raw_int64 scores -> is_lowest lo scores -> is_highest hi scores ->
  lo < hi ->
  (hi - lo) * (framework.MaxNodeScore - framework.MinNodeScore) <= MaxInt64 ->
  NormalizeScore scores = map (rescale lo hi) scores.
Proof.
  intros Hint Hlo Hhi Hlt Hfit.
  unfold NormalizeScore.
  rewrite (highest_lowest_spec scores lo hi Hint Hlo Hhi).
  assert (int64 lo) as Hilo.
  { destruct Hlo as [[nl [Hnl <-]] _].
    unfold raw_int64 in Hint. rewrite Forall_forall in Hint. by apply Hint. }
  rewrite Z.max_r by int64_lia.
  rewrite newRange_value.
  assert ((sub64 hi lo =? 0) = false) as ->.
  { apply Z.eqb_neq. unfold sub64. rewrite wrap64_id; [lia |].
    unfold framework.MaxNodeScore, framework.MinNodeScore in Hfit. int64_lia. }
  apply map_ext_in. intros nodeScore Hin.
  apply list_elem_of_In in Hin.
  unfold rescale, with_score. f_equal.
  apply rescale_exact; [| done | done].
  split; [by apply Hlo | by apply Hhi].
Qed.

(** The degenerate case: every raw score is [v]. *)
Lemma NormalizeScore_constant scores v :
  int64 v ->
  Forall (fun nodeScore => framework.Score nodeScore = v) scores ->
  NormalizeScore scores = map (with_score framework.MinNodeScore) scores.
Proof.
  intros Hv Hall.
  destruct scores as [| x scores]; [reflexivity |].
  rewrite Forall_forall in Hall.
  assert (is_lowest v (x :: scores)) as Hlo.
  { split.
    - exists x. split; [apply list_elem_of_here | apply Hall, list_elem_of_here].
    - intros ns Hin. rewrite (Hall _ Hin). lia. }
  assert (is_highest v (x :: scores)) as Hhi.
  { split.
    - exists x. split; [apply list_elem_of_here | apply Hall, list_elem_of_here].
    - intros ns Hin. rewrite (Hall _ Hin). lia. }
  assert (raw_int64 (x :: scores)) as Hint.
  { apply Forall_forall. intros ns Hin. by rewrite (Hall _ Hin). }
  unfold NormalizeScore.
  rewrite (highest_lowest_spec _ v v Hint Hlo Hhi).
  apply map_ext_in. intros nodeScore Hin.
  apply list_elem_of_In in Hin. rewrite (Hall _ Hin).
  unfold with_score.
  destruct (Z.max_spec (- MaxInt64) v) as [[Hlt ->] | [Hge ->]].
  - unfold sub64. rewrite Z.sub_diag. reflexivity.
  - (* only [v = MinInt64] lies below the initial [-MaxInt64] *)
    assert (v = - MaxInt64 \/ v = MinInt64) as [-> | ->]
      by int64_lia; reflexivity.
Qed.

(** ** The normalizer: the claims *)

Lemma rescale_lowest lo hi nodeScore :
  lo < hi -> framework.Score nodeScore = lo ->
  framework.Score (rescale lo hi nodeScore) = framework.MinNodeScore.
Proof.
  intros Hlt Hs. unfold rescale, framework.MinNodeScore. simpl.
  rewrite Hs, Z.sub_diag, Z.mul_0_l, Z.quot_0_l by lia. reflexivity.
Qed.

Lemma rescale_highest lo hi nodeScore :
  lo < hi -> framework.Score nodeScore = hi ->
  framework.Score (rescale lo hi nodeScore) = framework.MaxNodeScore.
Proof.
  intros Hlt Hs.
  unfold rescale, framework.MinNodeScore, framework.MaxNodeScore. simpl.
  rewrite Hs, Z.mul_comm, Z.quot_mul by lia. reflexivity.
Qed.

(** C2 (amended). For every list of [int64] raw scores with at least two
    distinct values, lowest [lo] and highest [hi], such that
    [(hi - lo) * (MaxScore - MinScore)] fits in [int64], [NormalizeScore]
    rewrites every score to
    [(raw - lo) * (MaxScore - MinScore) / (hi - lo) + MinScore] with
    truncating division, every element that held [lo] ends at [MinScore]
    and every element that held [hi] ends at [MaxScore]. *)
Theorem NormalizeScore_two_distinct (scores : framework.NodeScoreList) (lo hi : Z) :
  raw_int64 scores -> is_lowest lo scores -> is_highest hi scores ->
  lo < hi ->
  (hi - lo) * (framework.MaxNodeScore - framework.MinNodeScore) <= MaxInt64 ->
  NormalizeScore scores = map (rescale lo hi) scores
  /\ (forall i nodeScore,
        scores !! i = Some nodeScore -> framework.Score nodeScore = lo ->
        framework.Score <$> NormalizeScore scores !! i = Some framework.MinNodeScore)
  /\ (forall i nodeScore,
        scores !! i = Some nodeScore -> framework.Score nodeScore = hi ->
        framework.Score <$> NormalizeScore scores !! i = Some framework.MaxNodeScore).
Proof.
  intros Hint Hlo Hhi Hlt Hfit.
  pose proof (NormalizeScore_rescale scores lo hi Hint Hlo Hhi Hlt Hfit) as Heq.
  split; [exact Heq |].
  rewrite Heq.
  split; intros i nodeScore Hi Hs;
    change (map (rescale lo hi) scores) with (rescale lo hi <$> scores);
    rewrite list_lookup_fmap, Hi; simpl; f_equal.
  - by apply rescale_lowest.
  - by apply rescale_highest.
Qed.

Lemma rawLeast_int64 : raw_int64 rawLeast.
Proof. repeat constructor; by vm_compute. Qed.

Lemma rawLeast_lowest : is_lowest (-6) rawLeast.
Proof.
  split.
  - eexists. split; [apply list_elem_of_here | reflexivity].
  - intros ns Hin. unfold rawLeast in Hin.
    elem_of_literal Hin ltac:(simpl; lia).
Qed.

Lemma rawLeast_highest : is_highest (-2) rawLeast.
Proof.
  split.
  - eexists. split; [apply list_elem_of_further, list_elem_of_here | reflexivity].
  - intros ns Hin. unfold rawLeast in Hin.
    elem_of_literal Hin ltac:(simpl; lia).
Qed.

(** The scenario of the spec: raw scores [A = -6], [B = -2] normalize to
    [A = 0], [B = 100]. *)
Lemma NormalizeScore_two_distinct_rawLeast :
  NormalizeScore rawLeast
  = [ {| framework.Name := "A"; framework.Score := 0 |};
      {| framework.Name := "B"; framework.Score := 100 |} ].
Proof.
  destruct (NormalizeScore_two_distinct rawLeast (-6) (-2)) as [Heq _].
  - exact rawLeast_int64.
  - exact rawLeast_lowest.
  - exact rawLeast_highest.
  - lia.
  - by vm_compute.
  - rewrite Heq. reflexivity.
Defined.

(** C2 as stated fails on a wide spread: for the raw scores [0] and
    [2 ^ 62] the product [2 ^ 62 * 100] wraps to [0], so the element that
    held the highest raw score ends at [0], not at [MaxScore]. *)
Lemma NormalizeScore_highest_overflow :
  raw_int64 rawSpread62
  /\ is_highest 4611686018427387904 rawSpread62
  /\ rawSpread62 !! 1%nat
     = Some {| framework.Name := "B"; framework.Score := 4611686018427387904 |}
  /\ framework.Score <$> NormalizeScore rawSpread62 !! 1%nat = Some 0
  /\ framework.Score <$> NormalizeScore rawSpread62 !! 1%nat
     <> Some framework.MaxNodeScore.
Proof.
  split; [repeat constructor; by vm_compute |].
  split.
  { split.
    - eexists. split; [apply list_elem_of_further, list_elem_of_here | reflexivity].
    - intros ns Hin. unfold rawSpread62 in Hin.
      elem_of_literal Hin ltac:(simpl; lia). }
  split; [reflexivity |].
  split; [by vm_compute | by vm_compute].
Qed.

(** C3. For every list of [int64] raw scores that are all equal, a
    single-element list included, [NormalizeScore] sets every score to
    exactly [MinScore]. *)
Theorem NormalizeScore_all_equal (scores : framework.NodeScoreList) (v : Z) :
  scores <> [] ->
  int64 v ->
  Forall (fun nodeScore => framework.Score nodeScore = v) scores ->
  NormalizeScore scores = map (with_score framework.MinNodeScore) scores
  /\ Forall (fun nodeScore => framework.Score nodeScore = framework.MinNodeScore)
            (NormalizeScore scores).
Proof.
  intros _ Hv Hall.
  pose proof (NormalizeScore_constant scores v Hv Hall) as Heq.
  split; [exact Heq |].
  rewrite Heq. apply Forall_forall. intros ns Hin.
  apply list_elem_of_In, in_map_iff in Hin as [ns0 [<- _]]. reflexivity.
Qed.

(** A single candidate node ends at [MinScore] whatever its raw score. *)
Lemma NormalizeScore_all_equal_single :
  NormalizeScore rawSingle = [ {| framework.Name := "A"; framework.Score := 0 |} ].
Proof.
  destruct (NormalizeScore_all_equal rawSingle (-6)) as [Heq _].
  - discriminate.
  - by vm_compute.
  - repeat constructor.
  - rewrite Heq. reflexivity.
Defined.

Lemma rescale_in_range scores lo hi :
  is_lowest lo scores -> is_highest hi scores -> lo < hi ->
  (hi - lo) * (framework.MaxNodeScore - framework.MinNodeScore) <= MaxInt64 ->
  Forall (fun nodeScore =>
            framework.MinNodeScore <= framework.Score nodeScore <= framework.MaxNodeScore)
         (map (rescale lo hi) scores).
Proof.
  intros Hlo Hhi Hlt Hfit.
  apply Forall_forall. intros ns Hin.
  apply list_elem_of_In, in_map_iff in Hin as [ns0 [<- Hin]].
  apply list_elem_of_In in Hin.
  unfold rescale. simpl.
  apply (rescale_exact lo hi (framework.Score ns0)); [| done | done].
  split; [by apply Hlo | by apply Hhi].
Qed.

(** C6 (amended). For every list of [int64] raw scores in which the
    difference of any two raw scores, multiplied by [MaxScore - MinScore],
    fits in [int64], every score lies in [[MinScore, MaxScore]] after
    [NormalizeScore]. *)
Theorem NormalizeScore_in_range (scores : framework.NodeScoreList) :
  raw_int64 scores ->
  (forall a b, a ∈ scores -> b ∈ scores ->
     (framework.Score a - framework.Score b)
       * (framework.MaxNodeScore - framework.MinNodeScore) <= MaxInt64) ->
  Forall (fun nodeScore =>
            framework.MinNodeScore <= framework.Score nodeScore <= framework.MaxNodeScore)
         (NormalizeScore scores).
Proof.
  intros Hint Hfit.
  destruct (decide (scores = [])) as [-> | Hne]; [by constructor |].
  destruct (lowest_highest_exist scores Hne) as (lo & hi & Hlo & Hhi).
  pose proof Hlo as [[nl [Hnl Hsl]] Hlow].
  pose proof Hhi as [[nh [Hnh Hsh]] Hhigh].
  pose proof (Hfit _ _ Hnh Hnl) as Hspread. rewrite Hsl, Hsh in Hspread.
  pose proof (Hlow _ Hnh) as Hle. rewrite Hsh in Hle.
  destruct (decide (lo = hi)) as [<- | Hneq].
  - rewrite (NormalizeScore_constant scores lo).
    + apply Forall_forall. intros ns Hin.
      apply list_elem_of_In, in_map_iff in Hin as [ns0 [<- _]].
      by vm_compute.
    + rewrite <- Hsl. unfold raw_int64 in Hint. rewrite Forall_forall in Hint.
      by apply Hint.
    + apply Forall_forall. intros ns Hin.
      specialize (Hlow _ Hin). specialize (Hhigh _ Hin). lia.
  - rewrite (NormalizeScore_rescale scores lo hi) by (done || lia).
    apply rescale_in_range; (done || lia).
Qed.

Lemma NormalizeScore_in_range_rawLeast :
  Forall (fun nodeScore =>
            framework.MinNodeScore <= framework.Score nodeScore <= framework.MaxNodeScore)
         (NormalizeScore rawLeast).
Proof.
  apply NormalizeScore_in_range.
  - exact rawLeast_int64.
  - intros a b Ha Hb. unfold rawLeast in Ha, Hb.
    repeat (apply elem_of_cons in Ha as [-> | Ha]);
      repeat (apply elem_of_cons in Hb as [-> | Hb]);
      try (by apply elem_of_nil in Ha); try (by apply elem_of_nil in Hb);
      by vm_compute.
Defined.

(** C6 as stated fails on a wide spread: for the raw scores [0] and
    [2 ^ 61] the product [2 ^ 61 * 100] wraps to [- 2 ^ 63], and the second
    element ends at [-4], below [MinScore]. *)
Lemma NormalizeScore_out_of_range :
  raw_int64 rawSpread61
  /\ NormalizeScore rawSpread61
     = [ {| framework.Name := "A"; framework.Score := 0 |};
         {| framework.Name := "B"; framework.Score := -4 |} ]
  /\ ~ Forall (fun nodeScore =>
                 framework.MinNodeScore <= framework.Score nodeScore
                 <= framework.MaxNodeScore)
              (NormalizeScore rawSpread61).
Proof.
  split; [repeat constructor; by vm_compute |].
  split; [by vm_compute |].
  intros H. apply Forall_cons in H as [_ H]. apply Forall_cons in H as [[H _] _].
  vm_compute in H. by apply H.
Qed.

Lemma rescale_normalized nodeScore :
  rescale framework.MinNodeScore framework.MaxNodeScore nodeScore = nodeScore.
Proof.
  destruct nodeScore as [name raw].
  unfold rescale, with_score, framework.MinNodeScore, framework.MaxNodeScore. simpl.
  f_equal. rewrite Z.sub_0_r, Z.quot_mul by lia. lia.
Qed.

Lemma normalized_raw_int64 scores :
  is_lowest framework.MinNodeScore scores ->
  is_highest framework.MaxNodeScore scores ->
  raw_int64 scores.
Proof.
  intros [_ Hlow] [_ Hhigh]. apply Forall_forall. intros ns Hin.
  specialize (Hlow _ Hin). specialize (Hhigh _ Hin).
  unfold framework.MinNodeScore, framework.MaxNodeScore in *. int64_lia.
Qed.

(** C8. A score list whose lowest raw score is [MinScore] and whose highest
    raw score is [MaxScore] is left unchanged by [NormalizeScore]. *)
Theorem NormalizeScore_idempotent (scores : framework.NodeScoreList) :
  is_lowest framework.MinNodeScore scores ->
  is_highest framework.MaxNodeScore scores ->
  NormalizeScore scores = scores.
Proof.
  intros Hlo Hhi.
  pose proof (normalized_raw_int64 scores Hlo Hhi) as Hint.
  rewrite (NormalizeScore_rescale scores framework.MinNodeScore framework.MaxNodeScore
             Hint Hlo Hhi);
    [| by vm_compute | by vm_compute].
  rewrite <- (map_id scores) at 2.
  apply map_ext, rescale_normalized.
Qed.

Lemma NormalizeScore_idempotent_normalizedMost :
  NormalizeScore normalizedMost = normalizedMost.
Proof.
  apply NormalizeScore_idempotent.
  - split.
    + eexists. split; [apply list_elem_of_further, list_elem_of_here | reflexivity].
    + intros ns Hin. unfold normalizedMost in Hin.
      elem_of_literal Hin ltac:(by vm_compute).
  - split.
    + eexists. split; [apply list_elem_of_here | reflexivity].
    + intros ns Hin. unfold normalizedMost in Hin.
      elem_of_literal Hin ltac:(by vm_compute).
Defined.

(** Under [Most] the scenario's raw scores [A = 6], [B = 2] normalize to
    [A = 100], [B = 0]; a second pass changes nothing. *)
Lemma NormalizeScore_rawMost :
  NormalizeScore rawMost = normalizedMost
  /\ NormalizeScore (NormalizeScore rawMost) = NormalizeScore rawMost.
Proof. split; by vm_compute. Qed.

(** A second pass of the normalizer changes nothing when the first pass
    did not overflow. *)
Lemma NormalizeScore_twice scores lo hi :
  raw_int64 scores -> is_lowest lo scores -> is_highest hi scores ->
  lo < hi ->
  (hi - lo) * (framework.MaxNodeScore - framework.MinNodeScore) <= MaxInt64 ->
  NormalizeScore (NormalizeScore scores) = NormalizeScore scores.
Proof.
  intros Hint Hlo Hhi Hlt Hfit.
  rewrite (NormalizeScore_rescale scores lo hi) by done.
  pose proof (rescale_in_range scores lo hi Hlo Hhi Hlt Hfit) as Hrange.
  rewrite Forall_forall in Hrange.
  set (out := map (rescale lo hi) scores) in *.
  assert (is_lowest framework.MinNodeScore out) as Hlo'.
  { split; [| intros ns Hin; by apply Hrange].
    destruct Hlo as [[nl [Hnl Hsl]] _].
    exists (rescale lo hi nl). split; [| by apply rescale_lowest].
    apply list_elem_of_In, in_map, list_elem_of_In, Hnl. }
  assert (is_highest framework.MaxNodeScore out) as Hhi'.
  { split; [| intros ns Hin; by apply Hrange].
    destruct Hhi as [[nh [Hnh Hsh]] _].
    exists (rescale lo hi nh). split; [| by apply rescale_highest].
    apply list_elem_of_In, in_map, list_elem_of_In, Hnh. }
  rewrite (NormalizeScore_rescale out framework.MinNodeScore framework.MaxNodeScore
             (normalized_raw_int64 out Hlo' Hhi') Hlo' Hhi');
    [| by vm_compute | by vm_compute].
  rewrite <- (map_id out) at 2.
  apply map_ext, rescale_normalized.
Qed.

(** ** Monotonicity of the scorer in a single capacity *)

Lemma Zsum_zero l : Forall (fun z => z = 0) l -> Zsum l = 0.
Proof. induction 1 as [| z l -> _ IH]; simpl; lia. Qed.

Lemma weighted_total_single s (allocable : resourceToValueMap)
    (m : resourceToWeightMap) resource weight :
  m !! resource = Some weight ->
  (forall r, r <> resource -> is_Some (m !! r) -> value_at allocable r = 0) ->
  weighted_total s allocable m = s * value_at allocable resource * weight.
Proof.
  intros Hres Hzero. unfold weighted_total.
  rewrite <- (Zsum_Permutation _ _
                (weighted_terms_Permutation allocable s _ _
                   (map_to_list_delete m resource weight Hres))).
  simpl. rewrite Zsum_zero; [lia |].
  unfold weighted_terms. apply Forall_fmap, Forall_forall.
  intros [r w] Hin. simpl.
  apply elem_of_map_to_list, lookup_delete_Some in Hin as [Hne Hr].
  rewrite (Hzero r); [lia | done | by exists w].
Qed.

(** C7 (amended). Let the weight map have positive weights whose exact sum
    fits in [int64], and let [resource] be the only configured resource of
    nonzero capacity in two capacity maps.  If the capacity of [resource]
    does not decrease from the first map to the second and its product
    with the weight stays within [±MaxInt64], the scorer returns a score on
    both maps, and the score does not decrease under [Most] and does not
    increase under [Least]. *)
Theorem scorer_call_monotone (m : resourceToWeightMap) (mode : config.ModeType)
    (resource : string) (weight : Z)
    (requested allocable1 allocable2 : resourceToValueMap)
    (order1 order2 : list (string * Z)) :
  map_Forall (fun _ w => 0 < w) m ->
  int64 (weight_total m) ->
  m !! resource = Some weight ->
  (forall r, r <> resource -> is_Some (m !! r) ->
     value_at allocable1 r = 0 /\ value_at allocable2 r = 0) ->
  value_at allocable1 resource <= value_at allocable2 resource ->
  Z.abs (value_at allocable1 resource * weight) <= MaxInt64 ->
  Z.abs (value_at allocable2 resource * weight) <= MaxInt64 ->
  range_order m order1 -> range_order m order2 ->
  exists s1 s2,
    scorer_call (resourceScorer m mode) order1 requested allocable1 = Some s1
    /\ scorer_call (resourceScorer m mode) order2 requested allocable2 = Some s2
    /\ (mode = config.Most -> s1 <= s2)
    /\ (mode = config.Least -> s2 <= s1).
Proof.
  intros Hpos Hw Hres Hzero Hle Hfit1 Hfit2 Hord1 Hord2.
  assert (0 < weight) as Hweight by apply (Hpos _ _ Hres).
  assert (0 < weight_total m) as Htotal.
  { apply weight_total_positive; [| done]. intros ->. by rewrite lookup_empty in Hres. }
  assert (forall allocable, (forall r, r <> resource -> is_Some (m !! r) ->
                               value_at allocable r = 0) ->
            weighted_total (mode_sign mode) allocable m
            = mode_sign mode * value_at allocable resource * weight) as Hsingle.
  { intros allocable Hz. by apply weighted_total_single. }
  assert (mode_sign mode = -1 \/ mode_sign mode = 0 \/ mode_sign mode = 1) as Hsign.
  { unfold mode_sign. repeat case_decide; lia. }
  pose proof (Hsingle allocable1 (fun r Hne Hin => proj1 (Hzero r Hne Hin))) as E1.
  pose proof (Hsingle allocable2 (fun r Hne Hin => proj2 (Hzero r Hne Hin))) as E2.
  eexists _, _. split; [| split; [| split]].
  - apply scorer_call_exact; [done | done | done |].
    rewrite E1. int64_lia.
  - apply scorer_call_exact; [done | done | done |].
    rewrite E2. int64_lia.
  - intros ->. rewrite E1, E2. apply Z.quot_le_mono; [done |].
    change (mode_sign config.Most) with 1. nia.
  - intros ->. rewrite E1, E2. apply Z.quot_le_mono; [done |].
    change (mode_sign config.Least) with (-1). nia.
Qed.

Lemma scorer_call_monotone_cpu :
  exists s1 s2,
    scorer_call (resourceScorer spec_defaultResourcesToWeightMap config.Most)
                (map_to_list spec_defaultResourcesToWeightMap) ∅ nodeCpu2 = Some s1
    /\ scorer_call (resourceScorer spec_defaultResourcesToWeightMap config.Most)
                   (map_to_list spec_defaultResourcesToWeightMap) ∅ nodeCpu4 = Some s2
    /\ (config.Most = config.Most -> s1 <= s2)
    /\ (config.Most = config.Least -> s2 <= s1).
Proof.
  apply (scorer_call_monotone spec_defaultResourcesToWeightMap config.Most "cpu" 1).
  - exact spec_default_positive.
  - by vm_compute.
  - reflexivity.
  - intros r Hne [w Hr]. unfold spec_defaultResourcesToWeightMap in Hr.
    rewrite lookup_insert_ne in Hr by done.
    apply lookup_insert_Some in Hr as [[<- _] | [_ Hr]]; [by vm_compute |].
    by rewrite lookup_empty in Hr.
  - by vm_compute.
  - by vm_compute.
  - by vm_compute.
  - unfold range_order. reflexivity.
  - unfold range_order. reflexivity.
Defined.

(** C7 as stated fails once [capacity * weight] leaves the [int64] range:
    with the single resource [cpu] of weight 2 under [Most], raising the
    capacity from [2 ^ 61] to [2 ^ 62] lowers the score from [2 ^ 61] to
    [- 2 ^ 62]. *)
Lemma scorer_call_not_monotone :
  map_Forall (fun _ w => 0 < w) cpuWeight2
  /\ value_at node61 "cpu" < value_at node62 "cpu"
  /\ scorer_call (resourceScorer cpuWeight2 config.Most) (map_to_list cpuWeight2) ∅ node61
     = Some 2305843009213693952
  /\ scorer_call (resourceScorer cpuWeight2 config.Most) (map_to_list cpuWeight2) ∅ node62
     = Some (-4611686018427387904).
Proof.
  split.
  { unfold cpuWeight2. apply map_Forall_insert_2; [lia | apply map_Forall_empty]. }
  split; [by vm_compute |].
  split; by vm_compute.
Qed.

(** ** Construction *)

Lemma validate_accepts a :
  validation.ValidateNodeResourcesAllocatableArgs a = None <->
  Forall (fun resource => 0 < schedulerconfig.Weight resource) (config.Resources a).
Proof.
  unfold validation.ValidateNodeResourcesAllocatableArgs.
  destruct (list_find _ _) as [[i resource] |] eqn:Hfind.
  - split; [done |]. intros Hall.
    apply list_find_Some in Hfind as (Hi & Hbad & _).
    rewrite Forall_forall in Hall.
    apply list_elem_of_lookup_2, Hall in Hi. lia.
  - split; [intros _ | done].
    apply list_find_None in Hfind.
    eapply Forall_impl; [exact Hfind |]. simpl. intros resource. lia.
Qed.

(** The package's own [validateResources] rejects the same lists, with the
    same resource and weight in its message. *)
Lemma validateResources_agrees resources :
  validateResources resources
  = match list_find (fun resource => schedulerconfig.Weight resource <= 0) resources with
    | Some (_, resource) =>
        Some (WeightNotPositive (schedulerconfig.Name resource)
                                (schedulerconfig.Weight resource))
    | None => None
    end.
Proof.
  induction resources as [| resource rest IH]; [reflexivity |].
  simpl. destruct (Z.leb_spec (schedulerconfig.Weight resource) 0) as [Hbad | Hok].
  - by rewrite decide_True.
  - rewrite decide_False by lia. rewrite IH.
    by destruct (list_find _ rest) as [[i r] |].
Qed.

Lemma validate_rejects a :
  Exists (fun resource => schedulerconfig.Weight resource <= 0) (config.Resources a) ->
  exists resource,
    resource ∈ config.Resources a
    /\ schedulerconfig.Weight resource <= 0
    /\ validateResources (config.Resources a)
       = Some (WeightNotPositive (schedulerconfig.Name resource)
                                 (schedulerconfig.Weight resource))
    /\ validation.ValidateNodeResourcesAllocatableArgs a
       = Some (ConfigurationError (schedulerconfig.Name resource)
                                  (schedulerconfig.Weight resource)).
Proof.
  intros Hex. rewrite validateResources_agrees.
  unfold validation.ValidateNodeResourcesAllocatableArgs.
  destruct (list_find _ _) as [[i resource] |] eqn:Hfind.
  - apply list_find_Some in Hfind as (Hi & Hbad & _).
    exists resource. split; [by eapply list_elem_of_lookup_2 | done].
  - apply list_find_None in Hfind.
    apply Exists_exists in Hex as (resource & Hin & Hbad).
    rewrite Forall_forall in Hfind. by destruct (Hfind _ Hin).
Qed.

Lemma fill_from_nonempty resources (m0 : resourceToWeightMap) :
  m0 <> ∅ ->
  foldl (fun m resource =>
           <[schedulerconfig.Name resource := schedulerconfig.Weight resource]> m)
        m0 resources <> ∅.
Proof.
  revert m0. induction resources as [| resource rest IH]; intros m0 Hne; simpl; [done |].
  apply IH, insert_non_empty.
Qed.

Lemma fill_from_positive resources (m0 : resourceToWeightMap) :
  map_Forall (fun _ weight => 0 < weight) m0 ->
  Forall (fun resource => 0 < schedulerconfig.Weight resource) resources ->
  map_Forall (fun _ weight => 0 < weight)
    (foldl (fun m resource =>
              <[schedulerconfig.Name resource := schedulerconfig.Weight resource]> m)
           m0 resources).
Proof.
  revert m0. induction resources as [| resource rest IH]; intros m0 Hm0 Hall; simpl; [done |].
  apply Forall_cons in Hall as [Hres Hrest].
  apply IH; [| done]. by apply map_Forall_insert_2.
Qed.

Lemma fill_resToWeightMap_nonempty resources :
  resources <> [] -> fill_resToWeightMap resources <> ∅.
Proof.
  destruct resources as [| resource rest]; [done | intros _].
  unfold fill_resToWeightMap. simpl. apply fill_from_nonempty, insert_non_empty.
Qed.

Lemma fill_resToWeightMap_positive resources :
  Forall (fun resource => 0 < schedulerconfig.Weight resource) resources ->
  map_Forall (fun _ weight => 0 < weight) (fill_resToWeightMap resources).
Proof. apply fill_from_positive, map_Forall_empty. Qed.

(** What a successful construction stores. *)
Lemma NewAllocatable_inl defaultMap allocArgs plugin :
  NewAllocatable defaultMap allocArgs = inl plugin ->
  exists (m : resourceToWeightMap) (mode : config.ModeType),
    plugin = {| embedded :=
                  {| resourceAllocationScorer.Name := AllocatableName;
                     resourceAllocationScorer.scorer := resourceScorer m mode;
                     resourceAllocationScorer.resourceToWeightMap := m |} |}
    /\ (m = defaultMap
        \/ exists a, allocArgs = runtime.OfNodeResourcesAllocatableArgs a
                     /\ config.Resources a <> []
                     /\ Forall (fun resource => 0 < schedulerconfig.Weight resource)
                               (config.Resources a)
                     /\ m = fill_resToWeightMap (config.Resources a)).
Proof.
  unfold NewAllocatable. destruct allocArgs as [| a | typeName]; [| | done].
  - intros [= <-]. eexists _, _. split; [reflexivity | by left].
  - set (a' := if decide (config.Mode a = ""%string) then _ else a).
    assert (config.Resources a' = config.Resources a) as Hres.
    { subst a'. by case_decide. }
    destruct (validation.ValidateNodeResourcesAllocatableArgs a') eqn:Hval; [done |].
    apply validate_accepts in Hval. rewrite Hres in *.
    intros [= <-]. eexists _, _. split; [reflexivity |].
    destruct (config.Resources a) as [| resource rest] eqn:Hlist; simpl; [by left |].
    right. exists a. rewrite Hlist. done.
Qed.

(** C5 (amended). Let the default table be non-empty with positive weights.
    Every plugin a successful [NewAllocatable] call returns (nil argument,
    empty resource list or validated resource list) scores with a weight
    map that is non-empty and has only positive weights; and whenever the
    exact sum of these weights does not exceed [MaxInt64], the accumulated
    [weightSum] is positive on every enumeration, so the division has a
    nonzero divisor and the scorer returns a score. *)
Theorem NewAllocatable_weights_positive (defaultMap : resourceToWeightMap)
    (allocArgs : runtime.Object) (plugin : Allocatable) :
  defaultMap <> ∅ ->
  map_Forall (fun _ weight => 0 < weight) defaultMap ->
  NewAllocatable defaultMap allocArgs = inl plugin ->
  let f := resourceAllocationScorer.scorer (embedded plugin) in
  let m := resourceAllocationScorer.resourceToWeightMap (embedded plugin) in
  captured_resToWeightMap f = m
  /\ m <> ∅
  /\ map_Forall (fun _ weight => 0 < weight) m
  /\ (weight_total m <= MaxInt64 ->
      forall order requested allocable,
        range_order m order ->
        0 < (scorer_loop order allocable (captured_mode f)).2
        /\ is_Some (scorer_call f order requested allocable)).
Proof.
  intros Hne Hpos Hnew.
  apply NewAllocatable_inl in Hnew as (m & mode & -> & Hm). simpl.
  assert (m <> ∅ /\ map_Forall (fun _ weight => 0 < weight) m) as [Hmne Hmpos].
  { destruct Hm as [-> | (a & _ & Hlist & Hall & ->)]; [done |].
    split; [by apply fill_resToWeightMap_nonempty | by apply fill_resToWeightMap_positive]. }
  split; [done |]. split; [done |]. split; [done |].
  intros Hfit order requested allocable Hord.
  pose proof (weight_total_positive m Hmne Hmpos) as Htotal.
  assert (int64 (weight_total m)) as Hint by int64_lia.
  unfold scorer_call. simpl.
  rewrite (scorer_loop_Permutation _ _ allocable mode Hord), scorer_loop_sums. simpl.
  fold (weight_total m). rewrite (wrap64_id _ Hint).
  split; [done |].
  unfold div64. destruct (Z.eqb_spec (weight_total m) 0); [lia | by eexists].
Qed.

Lemma NewAllocatable_weights_positive_nil :
  exists plugin,
    NewAllocatable spec_defaultResourcesToWeightMap runtime.Nil = inl plugin
    /\ resourceAllocationScorer.resourceToWeightMap (embedded plugin) <> ∅
    /\ map_Forall (fun _ weight => 0 < weight)
                  (resourceAllocationScorer.resourceToWeightMap (embedded plugin))
    /\ is_Some (scorer_call (resourceAllocationScorer.scorer (embedded plugin))
                            (map_to_list spec_defaultResourcesToWeightMap) ∅ nodeA).
Proof.
  eexists. split; [reflexivity |].
  destruct (NewAllocatable_weights_positive spec_defaultResourcesToWeightMap runtime.Nil _
              spec_default_nonempty spec_default_positive eq_refl)
    as (_ & Hne & Hpos & Hsafe).
  split; [exact Hne |]. split; [exact Hpos |].
  apply Hsafe; [by vm_compute | unfold range_order; reflexivity].
Defined.

(** C5 as stated fails once the weights overflow in sum: the validated
    list of four resources of weight [2 ^ 62] builds a plugin whose weight
    map is non-empty and positive, yet the accumulated [weightSum] is [0]
    and the scorer's division panics. *)
Lemma NewAllocatable_division_by_zero :
  exists plugin,
    NewAllocatable spec_defaultResourcesToWeightMap
                   (runtime.OfNodeResourcesAllocatableArgs heavyArgs) = inl plugin
    /\ map_Forall (fun _ weight => int64 weight /\ 0 < weight)
                  (resourceAllocationScorer.resourceToWeightMap (embedded plugin))
    /\ (scorer_loop (map_to_list (resourceAllocationScorer.resourceToWeightMap
                                    (embedded plugin)))
                    nodeA config.Least).2 = 0
    /\ scorer_call (resourceAllocationScorer.scorer (embedded plugin))
                   (map_to_list (resourceAllocationScorer.resourceToWeightMap
                                   (embedded plugin)))
                   ∅ nodeA = None.
Proof.
  eexists. split; [reflexivity |].
  split.
  { simpl. unfold fill_resToWeightMap. simpl.
    repeat (apply map_Forall_insert_2; [by vm_compute |]). apply map_Forall_empty. }
  split; by vm_compute.
Qed.

(** C10. Whenever the supplied resource list has an entry of weight [≤ 0],
    construction returns an error and no plugin; the error names a listed
    resource of weight [≤ 0] together with that weight, the same resource
    and weight the package's [validateResources] reports. *)
Theorem NewAllocatable_rejects_nonpositive_weight (defaultMap : resourceToWeightMap)
    (a : config.NodeResourcesAllocatableArgs) :
  Exists (fun resource => schedulerconfig.Weight resource <= 0) (config.Resources a) ->
  exists resource,
    resource ∈ config.Resources a
    /\ schedulerconfig.Weight resource <= 0
    /\ validateResources (config.Resources a)
       = Some (WeightNotPositive (schedulerconfig.Name resource)
                                 (schedulerconfig.Weight resource))
    /\ NewAllocatable defaultMap (runtime.OfNodeResourcesAllocatableArgs a)
       = inr (ConfigurationError (schedulerconfig.Name resource)
                                 (schedulerconfig.Weight resource)).
Proof.
  intros Hex. unfold NewAllocatable.
  set (a' := if decide (config.Mode a = ""%string) then _ else a).
  assert (config.Resources a' = config.Resources a) as Hres.
  { subst a'. by case_decide. }
  rewrite <- Hres in Hex.
  destruct (validate_rejects a' Hex) as (resource & Hin & Hbad & Hlocal & ->).
  rewrite Hres in Hin, Hlocal. by exists resource.
Qed.

Lemma NewAllocatable_rejects_zero_weight :
  exists resource,
    resource ∈ config.Resources zeroWeightArgs
    /\ schedulerconfig.Weight resource <= 0
    /\ validateResources (config.Resources zeroWeightArgs)
       = Some (WeightNotPositive (schedulerconfig.Name resource)
                                 (schedulerconfig.Weight resource))
    /\ NewAllocatable spec_defaultResourcesToWeightMap
                      (runtime.OfNodeResourcesAllocatableArgs zeroWeightArgs)
       = inr (ConfigurationError (schedulerconfig.Name resource)
                                 (schedulerconfig.Weight resource)).
Proof.
  apply NewAllocatable_rejects_nonpositive_weight.
  apply Exists_cons_tl, Exists_cons_hd. by vm_compute.
Defined.

Lemma NewAllocatable_zero_weight_error :
  NewAllocatable spec_defaultResourcesToWeightMap
                 (runtime.OfNodeResourcesAllocatableArgs zeroWeightArgs)
  = inr (ConfigurationError "memory" 0)
  /\ validateResources (config.Resources zeroWeightArgs)
     = Some (WeightNotPositive "memory" 0).
Proof. split; reflexivity. Qed.

(** C4, on the code.  With a nil argument object the factory succeeds, but
    the mode the scorer captures is the empty string, not [Least]: every
    resource scores [0] instead of [-capacity]. *)
Theorem NewAllocatable_nil_mode_empty (defaultMap : resourceToWeightMap) :
  exists plugin,
    NewAllocatable defaultMap runtime.Nil = inl plugin
    /\ captured_mode (resourceAllocationScorer.scorer (embedded plugin)) = ""%string
    /\ captured_mode (resourceAllocationScorer.scorer (embedded plugin)) <> config.Least
    /\ (forall capacity,
          score capacity (captured_mode (resourceAllocationScorer.scorer (embedded plugin)))
          = 0).
Proof.
  eexists. split; [reflexivity |]. simpl.
  split; [reflexivity |]. split; [discriminate |]. reflexivity.
Qed.

(** With the table [{cpu: 1, memory: 1}], the plugin built from a nil
    argument scores node A of the scenario [0], where [Least] gives [-6]. *)
Lemma NewAllocatable_nil_nodeA :
  exists plugin,
    NewAllocatable spec_defaultResourcesToWeightMap runtime.Nil = inl plugin
    /\ scorer_call (resourceAllocationScorer.scorer (embedded plugin))
                   (map_to_list spec_defaultResourcesToWeightMap) ∅ nodeA = Some 0.
Proof. eexists. split; [reflexivity | by vm_compute]. Qed.

(** The sibling path: an argument object with an empty mode and valid
    weights does get [Least], and each resource then scores [-capacity]. *)
Lemma NewAllocatable_empty_mode_defaults (defaultMap : resourceToWeightMap)
    (resources : list schedulerconfig.ResourceSpec) :
  Forall (fun resource => 0 < schedulerconfig.Weight resource) resources ->
  exists plugin,
    NewAllocatable defaultMap
      (runtime.OfNodeResourcesAllocatableArgs
         {| config.Resources := resources; config.Mode := "" |}) = inl plugin
    /\ captured_mode (resourceAllocationScorer.scorer (embedded plugin)) = config.Least
    /\ (forall capacity, MinInt64 < capacity <= MaxInt64 ->
          score capacity (captured_mode (resourceAllocationScorer.scorer (embedded plugin)))
          = - capacity).
Proof.
  intros Hall. unfold NewAllocatable. simpl.
  assert (validation.ValidateNodeResourcesAllocatableArgs
            {| config.Resources := resources; config.Mode := config.Least |} = None) as ->.
  { by apply validate_accepts. }
  eexists. split; [reflexivity |]. simpl.
  split; [reflexivity |].
  intros capacity Hcap. unfold score. rewrite decide_True by done.
  unfold mul64. rewrite wrap64_id; [lia | int64_lia].
Qed.

(** * Further properties of the code *)

(** ** [validateResources] *)

(** [validateResources] returns nil exactly on the lists whose weights are
    all positive; there is no upper bound. *)
Theorem validateResources_accepts_iff (resources : list schedulerconfig.ResourceSpec) :
  validateResources resources = None
  <-> Forall (fun resource => 0 < schedulerconfig.Weight resource) resources.
Proof.
  induction resources as [| resource rest IH]; simpl.
  - split; [constructor | done].
  - destruct (Z.leb_spec (schedulerconfig.Weight resource) 0) as [Hbad | Hok].
    + split; [done |]. intros Hall. apply Forall_cons in Hall as [Hpos _]. lia.
    + rewrite IH. split.
      * intros Hrest. by constructor.
      * intros Hall. by apply Forall_cons in Hall as [_ Hrest].
Qed.

(** When [validateResources] fails, its error carries the name and the
    weight of the first entry whose weight is not positive: every entry
    before it has a positive weight. *)
Theorem validateResources_first_offender
    (resources : list schedulerconfig.ResourceSpec) (err : error) :
  validateResources resources = Some err ->
  exists before resource after,
    resources = before ++ resource :: after
    /\ Forall (fun r => 0 < schedulerconfig.Weight r) before
    /\ schedulerconfig.Weight resource <= 0
    /\ err = WeightNotPositive (schedulerconfig.Name resource)
                               (schedulerconfig.Weight resource).
Proof.
  induction resources as [| resource rest IH]; simpl; [done |].
  destruct (Z.leb_spec (schedulerconfig.Weight resource) 0) as [Hbad | Hok].
  - intros [= <-]. exists [], resource, rest. by repeat split.
  - intros Hrest. destruct (IH Hrest) as (before & r & after & -> & Hall & Hr & ->).
    exists (resource :: before), r, after.
    split; [done |]. split; [by constructor | done].
Qed.

Lemma validateResources_first_offender_memory :
  exists before resource after,
    config.Resources zeroWeightArgs = before ++ resource :: after
    /\ Forall (fun r => 0 < schedulerconfig.Weight r) before
    /\ schedulerconfig.Weight resource <= 0
    /\ WeightNotPositive "memory" 0
       = WeightNotPositive (schedulerconfig.Name resource)
                           (schedulerconfig.Weight resource).
Proof.
  apply (validateResources_first_offender (config.Resources zeroWeightArgs)).
  reflexivity.
Defined.

(** ** [NewAllocatable] *)

Lemma fill_from_lookup resources (m0 : resourceToWeightMap) name :
  foldl (fun m resource =>
           <[schedulerconfig.Name resource := schedulerconfig.Weight resource]> m)
        m0 resources !! name
  = match listed_weight name resources with
    | Some weight => Some weight
    | None => m0 !! name
    end.
Proof.
  revert m0. induction resources as [| resource rest IH]; intros m0; [done |].
  simpl. rewrite IH. unfold listed_weight. rewrite filter_cons.
  destruct (decide (schedulerconfig.Name resource = name)) as [<- | Hne].
  - rewrite last_cons.
    destruct (last (filter _ rest)) as [r |]; simpl; [done |].
    by rewrite lookup_insert_eq.
  - destruct (last (filter _ rest)) as [r |]; simpl; [done |].
    by rewrite lookup_insert_ne.
Qed.

(** What a successful construction from an argument object stores. *)
Lemma NewAllocatable_args_inl defaultMap a plugin :
  NewAllocatable defaultMap (runtime.OfNodeResourcesAllocatableArgs a) = inl plugin ->
  Forall (fun resource => 0 < schedulerconfig.Weight resource) (config.Resources a)
  /\ exists m,
       (match config.Resources a with
        | [] => m = defaultMap
        | _ :: _ => m = fill_resToWeightMap (config.Resources a)
        end)
       /\ plugin
          = {| embedded :=
                 {| resourceAllocationScorer.Name := AllocatableName;
                    resourceAllocationScorer.scorer :=
                      resourceScorer m (if decide (config.Mode a = ""%string)
                                        then config.Least else config.Mode a);
                    resourceAllocationScorer.resourceToWeightMap := m |} |}.
Proof.
  unfold NewAllocatable.
  set (a' := if decide (config.Mode a = ""%string) then _ else a).
  assert (config.Resources a' = config.Resources a) as Hres.
  { subst a'. by case_decide. }
  assert (config.Mode a'
          = if decide (config.Mode a = ""%string) then config.Least else config.Mode a)
    as Hmode.
  { subst a'. by case_decide. }
  destruct (validation.ValidateNodeResourcesAllocatableArgs a') eqn:Hval; [done |].
  apply validate_accepts in Hval. rewrite Hres, Hmode in *.
  intros [= <-]. split; [done |].
  destruct (config.Resources a) as [| resource rest]; simpl; eexists; done.
Qed.

(** A non-empty resource list replaces the default table, it is not merged
    into it: the plugin's weight map holds, for every name, the weight of
    the last list entry of that name, and nothing for a name the list does
    not mention. *)
Theorem NewAllocatable_listed_weights (defaultMap : resourceToWeightMap)
    (a : config.NodeResourcesAllocatableArgs) (plugin : Allocatable) :
  NewAllocatable defaultMap (runtime.OfNodeResourcesAllocatableArgs a) = inl plugin ->
  config.Resources a <> [] ->
  forall name,
    resourceAllocationScorer.resourceToWeightMap (embedded plugin) !! name
    = listed_weight name (config.Resources a)
    /\ captured_resToWeightMap (resourceAllocationScorer.scorer (embedded plugin)) !! name
       = listed_weight name (config.Resources a).
Proof.
  intros Hnew Hne name.
  apply NewAllocatable_args_inl in Hnew as (_ & m & Hm & ->). simpl.
  destruct (config.Resources a) as [| resource rest] eqn:Hlist; [done |].
  subst m. unfold fill_resToWeightMap. rewrite fill_from_lookup, lookup_empty.
  by destruct (listed_weight name (resource :: rest)).
Qed.

Lemma NewAllocatable_listed_weights_repeated :
  exists plugin,
    NewAllocatable spec_defaultResourcesToWeightMap
                   (runtime.OfNodeResourcesAllocatableArgs repeatedArgs) = inl plugin
    /\ resourceAllocationScorer.resourceToWeightMap (embedded plugin) !! "cpu"%string = Some 3
    /\ resourceAllocationScorer.resourceToWeightMap (embedded plugin) !! "gpu"%string = Some 2
    /\ resourceAllocationScorer.resourceToWeightMap (embedded plugin) !! "memory"%string = None.
Proof.
  eexists. split; [reflexivity |].
  pose proof (NewAllocatable_listed_weights spec_defaultResourcesToWeightMap repeatedArgs _
                eq_refl ltac:(discriminate)) as H.
  split; [apply (H "cpu"%string) |]. split; [apply (H "gpu"%string) | apply (H "memory"%string)].
Defined.

(** A plugin built from an argument object never carries an empty mode: it
    carries the mode of the object, or [Least] where the object has none.
    With an empty resource list it scores with the default table. *)
Theorem NewAllocatable_args_mode (defaultMap : resourceToWeightMap)
    (a : config.NodeResourcesAllocatableArgs) (plugin : Allocatable) :
  NewAllocatable defaultMap (runtime.OfNodeResourcesAllocatableArgs a) = inl plugin ->
  captured_mode (resourceAllocationScorer.scorer (embedded plugin)) <> ""%string
  /\ captured_mode (resourceAllocationScorer.scorer (embedded plugin))
     = (if decide (config.Mode a = ""%string) then config.Least else config.Mode a)
  /\ (config.Resources a = [] ->
      resourceAllocationScorer.resourceToWeightMap (embedded plugin) = defaultMap
      /\ captured_resToWeightMap (resourceAllocationScorer.scorer (embedded plugin))
         = defaultMap).
Proof.
  intros Hnew.
  apply NewAllocatable_args_inl in Hnew as (_ & m & Hm & ->). simpl.
  split; [by case_decide |]. split; [done |].
  intros Hnil. rewrite Hnil in Hm. by subst m.
Qed.

Lemma NewAllocatable_args_mode_repeated :
  exists plugin,
    NewAllocatable spec_defaultResourcesToWeightMap
                   (runtime.OfNodeResourcesAllocatableArgs repeatedArgs) = inl plugin
    /\ captured_mode (resourceAllocationScorer.scorer (embedded plugin)) <> ""%string
    /\ captured_mode (resourceAllocationScorer.scorer (embedded plugin)) = config.Least.
Proof.
  eexists. split; [reflexivity |].
  destruct (NewAllocatable_args_mode spec_defaultResourcesToWeightMap repeatedArgs _ eq_refl)
    as (Hne & Hmode & _).
  split; [exact Hne | exact Hmode].
Defined.

(** ** The scorer closure *)

Lemma Zsum_weighted_terms_sign allocable s order :
  Zsum (weighted_terms allocable s order) = s * Zsum (weighted_terms allocable 1 order).
Proof. induction order as [| entry order IH]; simpl; [lia | rewrite IH; lia]. Qed.

Lemma weighted_total_sign s allocable (m : resourceToWeightMap) :
  weighted_total s allocable m = s * weighted_total 1 allocable m.
Proof. apply Zsum_weighted_terms_sign. Qed.

(** With an empty weight map the loop body never runs, [weightSum] stays
    [0], and every call of the scorer panics on the division. *)
Theorem scorer_call_empty_map (mode : config.ModeType)
    (order : list (string * Z)) (requested allocable : resourceToValueMap) :
  range_order ∅ order ->
  scorer_call (resourceScorer ∅ mode) order requested allocable = None.
Proof.
  unfold range_order. rewrite map_to_list_empty. intros Hord.
  apply Permutation_nil_r in Hord as ->. reflexivity.
Qed.

Lemma scorer_call_empty_map_Least :
  scorer_call (resourceScorer ∅ config.Least) [] ∅ nodeA = None.
Proof.
  apply scorer_call_empty_map. unfold range_order. by rewrite map_to_list_empty.
Defined.

(** A mode that is neither [Least] nor [Most] makes every resource score
    [0]: on a non-empty map of positive weights whose sum fits in [int64],
    the scorer returns [0] for every node. *)
Theorem scorer_call_unknown_mode (m : resourceToWeightMap) (mode : config.ModeType)
    (order : list (string * Z)) (requested allocable : resourceToValueMap) :
  mode <> config.Least -> mode <> config.Most ->
  m <> ∅ ->
  map_Forall (fun _ weight => 0 < weight) m ->
  weight_total m <= MaxInt64 ->
  range_order m order ->
  scorer_call (resourceScorer m mode) order requested allocable = Some 0.
Proof.
  intros HL HM Hne Hpos Hfit Hord.
  pose proof (weight_total_positive m Hne Hpos) as Htotal.
  assert (mode_sign mode = 0) as Hsign.
  { unfold mode_sign. by rewrite !decide_False. }
  assert (weighted_total (mode_sign mode) allocable m = 0) as Hzero.
  { rewrite weighted_total_sign, Hsign. lia. }
  rewrite (scorer_call_exact m mode requested allocable order Hord Htotal).
  - rewrite Hzero. by rewrite Z.quot_0_l by lia.
  - int64_lia.
  - rewrite Hzero. int64_lia.
Qed.

Lemma scorer_call_unknown_mode_empty_string :
  scorer_call (resourceScorer spec_defaultResourcesToWeightMap "")
              (map_to_list spec_defaultResourcesToWeightMap) ∅ nodeA = Some 0.
Proof.
  apply scorer_call_unknown_mode.
  - discriminate.
  - discriminate.
  - exact spec_default_nonempty.
  - exact spec_default_positive.
  - by vm_compute.
  - unfold range_order. reflexivity.
Defined.

(** The scorer reads nothing but the capacities of the configured
    resources: the requested map is ignored, and two capacity maps that
    agree on every configured resource get the same result, overflow and
    panic included. *)
Theorem scorer_call_configured_only (f : scorerFunc) (order : list (string * Z))
    (requested1 requested2 allocable1 allocable2 : resourceToValueMap) :
  range_order (captured_resToWeightMap f) order ->
  (forall resource, is_Some (captured_resToWeightMap f !! resource) ->
     value_at allocable1 resource = value_at allocable2 resource) ->
  scorer_call f order requested1 allocable1 = scorer_call f order requested2 allocable2.
Proof.
  unfold range_order, scorer_call. intros Hord Hagree.
  rewrite !scorer_loop_sums.
  assert (weighted_terms allocable1 (mode_sign (captured_mode f)) order
          = weighted_terms allocable2 (mode_sign (captured_mode f)) order) as ->;
    [| reflexivity].
  unfold weighted_terms. apply map_ext_in. intros [resource weight] Hin. simpl.
  rewrite (Hagree resource); [done |].
  exists weight. apply elem_of_map_to_list. rewrite <- Hord. by apply list_elem_of_In.
Qed.

Lemma scorer_call_configured_only_gpu :
  scorer_call (resourceScorer spec_defaultResourcesToWeightMap config.Least)
              (map_to_list spec_defaultResourcesToWeightMap) ∅ nodeA
  = scorer_call (resourceScorer spec_defaultResourcesToWeightMap config.Least)
                (map_to_list spec_defaultResourcesToWeightMap) nodeB nodeA_gpu.
Proof.
  apply scorer_call_configured_only.
  - unfold range_order. reflexivity.
  - intros resource [w Hr]. simpl in Hr. unfold spec_defaultResourcesToWeightMap in Hr.
    apply lookup_insert_Some in Hr as [[<- _] | [_ Hr]]; [by vm_compute |].
    apply lookup_insert_Some in Hr as [[<- _] | [_ Hr]]; [by vm_compute |].
    by rewrite lookup_empty in Hr.
Defined.

(** Without overflow the two modes mirror each other: the [Least] score of
    a node is the negation of its [Most] score. *)
Theorem scorer_call_Least_negates_Most (m : resourceToWeightMap)
    (order1 order2 : list (string * Z)) (requested allocable : resourceToValueMap) :
  m <> ∅ ->
  map_Forall (fun _ weight => 0 < weight) m ->
  weight_total m <= MaxInt64 ->
  Z.abs (weighted_total 1 allocable m) <= MaxInt64 ->
  range_order m order1 -> range_order m order2 ->
  exists s,
    scorer_call (resourceScorer m config.Most) order1 requested allocable = Some s
    /\ scorer_call (resourceScorer m config.Least) order2 requested allocable = Some (- s).
Proof.
  intros Hne Hpos Hfit Habs Hord1 Hord2.
  pose proof (weight_total_positive m Hne Hpos) as Htotal.
  exists (weighted_total 1 allocable m ÷ weight_total m). split.
  - apply (scorer_call_exact m config.Most); [done | done | int64_lia |].
    change (mode_sign config.Most) with 1. int64_lia.
  - rewrite (scorer_call_exact m config.Least); [| done | done | int64_lia |].
    + change (mode_sign config.Least) with (-1).
      rewrite (weighted_total_sign (-1)).
      replace (-1 * weighted_total 1 allocable m) with (- weighted_total 1 allocable m) by lia.
      by rewrite Z.quot_opp_l by lia.
    + change (mode_sign config.Least) with (-1).
      rewrite (weighted_total_sign (-1)). int64_lia.
Qed.

Lemma scorer_call_Least_negates_Most_nodeA :
  exists s,
    scorer_call (resourceScorer spec_defaultResourcesToWeightMap config.Most)
                (map_to_list spec_defaultResourcesToWeightMap) ∅ nodeA = Some s
    /\ scorer_call (resourceScorer spec_defaultResourcesToWeightMap config.Least)
                   (map_to_list spec_defaultResourcesToWeightMap) ∅ nodeA = Some (- s).
Proof.
  apply scorer_call_Least_negates_Most.
  - exact spec_default_nonempty.
  - exact spec_default_positive.
  - by vm_compute.
  - by vm_compute.
  - unfold range_order. reflexivity.
  - unfold range_order. reflexivity.
Defined.

Lemma weighted_terms_between allocable (order : list (string * Z)) lo hi :
  Forall (fun entry => 0 < entry.2 /\ lo <= value_at allocable entry.1 <= hi) order ->
  lo * Zsum (weights_of order) <= Zsum (weighted_terms allocable 1 order)
  <= hi * Zsum (weights_of order).
Proof.
  induction 1 as [| [resource weight] order [Hw Hc] _ IH]; simpl in *; nia.
Qed.

Lemma weighted_total_between allocable (m : resourceToWeightMap) lo hi :
  map_Forall (fun _ weight => 0 < weight) m ->
  (forall resource weight, m !! resource = Some weight ->
     lo <= value_at allocable resource <= hi) ->
  lo * weight_total m <= weighted_total 1 allocable m <= hi * weight_total m.
Proof.
  intros Hpos Hcap. apply weighted_terms_between, Forall_forall.
  intros [resource weight] Hin. apply elem_of_map_to_list in Hin. simpl.
  split; [by apply (Hpos resource) | by apply (Hcap resource weight)].
Qed.

(** The [Most] score is a weighted average: without overflow it lies
    between the smallest and the largest capacity of the configured
    resources. *)
Theorem scorer_call_Most_between (m : resourceToWeightMap)
    (order : list (string * Z)) (requested allocable : resourceToValueMap) (lo hi : Z) :
  m <> ∅ ->
  map_Forall (fun _ weight => 0 < weight) m ->
  weight_total m <= MaxInt64 ->
  int64 (weighted_total 1 allocable m) ->
  (forall resource weight, m !! resource = Some weight ->
     lo <= value_at allocable resource <= hi) ->
  range_order m order ->
  exists s,
    scorer_call (resourceScorer m config.Most) order requested allocable = Some s
    /\ lo <= s <= hi.
Proof.
  intros Hne Hpos Hfit Hint Hcap Hord.
  pose proof (weight_total_positive m Hne Hpos) as Htotal.
  pose proof (weighted_total_between allocable m lo hi Hpos Hcap) as [Hlo Hhi].
  exists (weighted_total 1 allocable m ÷ weight_total m). split.
  - apply (scorer_call_exact m config.Most); [done | done | int64_lia | done].
  - split.
    + apply Z.quot_le_lower_bound; lia.
    + apply Z.quot_le_upper_bound; lia.
Qed.

Lemma nodeA_between (resource : string) (weight : Z) :
  spec_defaultResourcesToWeightMap !! resource = Some weight ->
  4 <= value_at nodeA resource <= 8.
Proof.
  unfold spec_defaultResourcesToWeightMap. intros Hr.
  apply lookup_insert_Some in Hr as [[<- _] | [_ Hr]]; [by vm_compute |].
  apply lookup_insert_Some in Hr as [[<- _] | [_ Hr]]; [by vm_compute |].
  by rewrite lookup_empty in Hr.
Qed.

Lemma scorer_call_Most_between_nodeA :
  exists s,
    scorer_call (resourceScorer spec_defaultResourcesToWeightMap config.Most)
                (map_to_list spec_defaultResourcesToWeightMap) ∅ nodeA = Some s
    /\ 4 <= s <= 8.
Proof.
  apply scorer_call_Most_between.
  - exact spec_default_nonempty.
  - exact spec_default_positive.
  - by vm_compute.
  - by vm_compute.
  - exact nodeA_between.
  - unfold range_order. reflexivity.
Defined.

(** The note in [Score]: on capacities that are not negative, and without
    overflow, the returned score is not positive under [Least] and not
    negative under [Most]. *)
Theorem scorer_call_sign (m : resourceToWeightMap) (mode : config.ModeType)
    (order : list (string * Z)) (requested allocable : resourceToValueMap) :
  m <> ∅ ->
  map_Forall (fun _ weight => 0 < weight) m ->
  weight_total m <= MaxInt64 ->
  weighted_total 1 allocable m <= MaxInt64 ->
  (forall resource weight, m !! resource = Some weight -> 0 <= value_at allocable resource) ->
  range_order m order ->
  exists s,
    scorer_call (resourceScorer m mode) order requested allocable = Some s
    /\ (mode = config.Most -> 0 <= s)
    /\ (mode = config.Least -> s <= 0).
Proof.
  intros Hne Hpos Hfit Hsum Hcap Hord.
  pose proof (weight_total_positive m Hne Hpos) as Htotal.
  assert (0 <= weighted_total 1 allocable m) as Hnonneg.
  { unfold weighted_total, weighted_terms.
    assert (forall l : list (string * Z),
              Forall (fun entry => 0 < entry.2 /\ 0 <= value_at allocable entry.1) l ->
              0 <= Zsum (map (fun entry => 1 * value_at allocable entry.1 * entry.2) l)) as Hl.
    { induction 1 as [| [r w] l [Hw Hc] _ IH]; simpl in *; nia. }
    apply Hl, Forall_forall. intros [r w] Hin. apply elem_of_map_to_list in Hin. simpl.
    split; [by apply (Hpos r) | by apply (Hcap r w)]. }
  assert (mode_sign mode = -1 \/ mode_sign mode = 0 \/ mode_sign mode = 1) as Hsign.
  { unfold mode_sign. repeat case_decide; lia. }
  exists (weighted_total (mode_sign mode) allocable m ÷ weight_total m).
  split; [| split].
  - apply scorer_call_exact; [done | done | int64_lia |].
    rewrite weighted_total_sign. int64_lia.
  - intros ->. change (mode_sign config.Most) with 1.
    apply Z.quot_pos; lia.
  - intros ->. change (mode_sign config.Least) with (-1).
    rewrite (weighted_total_sign (-1)).
    replace (-1 * weighted_total 1 allocable m) with (- weighted_total 1 allocable m) by lia.
    rewrite Z.quot_opp_l by lia.
    pose proof (Z.quot_pos (weighted_total 1 allocable m) (weight_total m) Hnonneg Htotal).
    lia.
Qed.

Lemma scorer_call_sign_nodeA :
  exists s,
    scorer_call (resourceScorer spec_defaultResourcesToWeightMap config.Least)
                (map_to_list spec_defaultResourcesToWeightMap) ∅ nodeA = Some s
    /\ (config.Least = config.Most -> 0 <= s)
    /\ (config.Least = config.Least -> s <= 0).
Proof.
  apply scorer_call_sign.
  - exact spec_default_nonempty.
  - exact spec_default_positive.
  - by vm_compute.
  - by vm_compute.
  - intros resource weight Hr. pose proof (nodeA_between resource weight Hr). lia.
  - unfold range_order. reflexivity.
Defined.

Lemma weights_of_scaled k (l : list (string * Z)) :
  Zsum (weights_of (map (prod_map id (Z.mul k)) l)) = k * Zsum (weights_of l).
Proof.
  induction l as [| [r w] l IH]; [simpl; lia |].
  change (k * w + Zsum (weights_of (map (prod_map id (Z.mul k)) l))
          = k * (w + Zsum (weights_of l))).
  rewrite IH. lia.
Qed.

Lemma weighted_terms_scaled allocable s k (l : list (string * Z)) :
  Zsum (weighted_terms allocable s (map (prod_map id (Z.mul k)) l))
  = k * Zsum (weighted_terms allocable s l).
Proof.
  induction l as [| [r w] l IH]; [simpl; lia |].
  change (s * value_at allocable r * (k * w)
          + Zsum (weighted_terms allocable s (map (prod_map id (Z.mul k)) l))
          = k * (s * value_at allocable r * w + Zsum (weighted_terms allocable s l))).
  rewrite IH. lia.
Qed.

(** Only the ratios of the weights matter: multiplying every weight by the
    same [k > 0] leaves the score unchanged, as long as the scaled sums
    still fit in [int64]. *)
Theorem scorer_call_weights_scaled (m : resourceToWeightMap) (k : Z)
    (mode : config.ModeType) (order1 order2 : list (string * Z))
    (requested allocable : resourceToValueMap) :
  0 < k ->
  m <> ∅ ->
  map_Forall (fun _ weight => 0 < weight) m ->
  k * weight_total m <= MaxInt64 ->
  Z.abs (k * weighted_total 1 allocable m) <= MaxInt64 ->
  range_order m order1 ->
  range_order (Z.mul k <$> m) order2 ->
  scorer_call (resourceScorer (Z.mul k <$> m) mode) order2 requested allocable
  = scorer_call (resourceScorer m mode) order1 requested allocable.
Proof.
  intros Hk Hne Hpos Hfit Habs Hord1 Hord2.
  pose proof (weight_total_positive m Hne Hpos) as Htotal.
  assert (weight_total (Z.mul k <$> m) = k * weight_total m) as Hw.
  { unfold weight_total. rewrite map_to_list_fmap. apply weights_of_scaled. }
  assert (forall s, weighted_total s allocable (Z.mul k <$> m)
                    = k * weighted_total s allocable m) as Hn.
  { intros s. unfold weighted_total. rewrite map_to_list_fmap.
    apply weighted_terms_scaled. }
  assert (mode_sign mode = -1 \/ mode_sign mode = 0 \/ mode_sign mode = 1) as Hsign.
  { unfold mode_sign. repeat case_decide; lia. }
  rewrite (scorer_call_exact (Z.mul k <$> m) mode requested allocable order2 Hord2).
  - rewrite (scorer_call_exact m mode requested allocable order1 Hord1 Htotal).
    + rewrite Hw, Hn. f_equal. apply Z.quot_mul_cancel_l; lia.
    + int64_lia.
    + rewrite weighted_total_sign. int64_lia.
  - rewrite Hw. lia.
  - rewrite Hw. int64_lia.
  - rewrite Hn, weighted_total_sign. int64_lia.
Qed.

Lemma scorer_call_weights_scaled_by_1024 :
  scorer_call (resourceScorer (Z.mul 1024 <$> spec_defaultResourcesToWeightMap) config.Least)
              (map_to_list (Z.mul 1024 <$> spec_defaultResourcesToWeightMap)) ∅ nodeA
  = scorer_call (resourceScorer spec_defaultResourcesToWeightMap config.Least)
                (map_to_list spec_defaultResourcesToWeightMap) ∅ nodeA.
Proof.
  apply scorer_call_weights_scaled.
  - lia.
  - exact spec_default_nonempty.
  - exact spec_default_positive.
  - by vm_compute.
  - by vm_compute.
  - unfold range_order. reflexivity.
  - unfold range_order. reflexivity.
Defined.

(** With a single configured resource the weight cancels: without overflow
    the score is the capacity itself under [Most], its negation under
    [Least], and a missing capacity scores [0]. *)
Theorem scorer_call_single_resource (resource : string) (weight : Z)
    (order : list (string * Z)) (requested allocable : resourceToValueMap) :
  0 < weight <= MaxInt64 ->
  Z.abs (value_at allocable resource * weight) <= MaxInt64 ->
  range_order {[resource := weight]} order ->
  scorer_call (resourceScorer {[resource := weight]} config.Most) order requested allocable
  = Some (value_at allocable resource)
  /\ scorer_call (resourceScorer {[resource := weight]} config.Least) order requested allocable
     = Some (- value_at allocable resource).
Proof.
  intros Hw Habs Hord.
  assert (weight_total ({[resource := weight]} : resourceToWeightMap) = weight) as Htotal.
  { unfold weight_total. rewrite map_to_list_singleton. simpl. lia. }
  assert (forall s, weighted_total s allocable ({[resource := weight]} : resourceToWeightMap)
                    = s * value_at allocable resource * weight) as Hsum.
  { intros s. unfold weighted_total. rewrite map_to_list_singleton. simpl. lia. }
  split.
  - rewrite (scorer_call_exact _ config.Most requested allocable order Hord).
    + rewrite Htotal, Hsum. change (mode_sign config.Most) with 1.
      f_equal. rewrite Z.mul_1_l. apply Z.quot_mul. lia.
    + rewrite Htotal. lia.
    + rewrite Htotal. int64_lia.
    + rewrite Hsum. change (mode_sign config.Most) with 1. int64_lia.
  - rewrite (scorer_call_exact _ config.Least requested allocable order Hord).
    + rewrite Htotal, Hsum. change (mode_sign config.Least) with (-1).
      f_equal.
      replace (-1 * value_at allocable resource * weight)
        with (- value_at allocable resource * weight) by lia.
      apply Z.quot_mul. lia.
    + rewrite Htotal. lia.
    + rewrite Htotal. int64_lia.
    + rewrite Hsum. change (mode_sign config.Least) with (-1). int64_lia.
Qed.

Lemma scorer_call_single_resource_cpu :
  scorer_call (resourceScorer {["cpu"%string := 1048576]} config.Most)
              (map_to_list ({["cpu"%string := 1048576]} : resourceToWeightMap)) ∅ nodeA
  = Some (value_at nodeA "cpu")
  /\ scorer_call (resourceScorer {["cpu"%string := 1048576]} config.Least)
                 (map_to_list ({["cpu"%string := 1048576]} : resourceToWeightMap)) ∅ nodeA
     = Some (- value_at nodeA "cpu").
Proof.
  apply scorer_call_single_resource.
  - by vm_compute.
  - by vm_compute.
  - unfold range_order. reflexivity.
Defined.

(** ** [score] *)

(** Under [Least] the per-resource score is the negated capacity, except at
    [MinInt64], whose negation does not exist in [int64]: there the product
    [-1 * capacity] wraps back to [MinInt64]. *)
Theorem score_Least_negates (capacity : Z) :
  int64 capacity ->
  score capacity config.Least
  = (if decide (capacity = MinInt64) then MinInt64 else - capacity).
Proof.
  intros Hcap. unfold score. rewrite decide_True by done. unfold mul64.
  case_decide as Hmin.
  - subst capacity. reflexivity.
  - replace (-1 * capacity) with (- capacity) by lia.
    apply wrap64_id. int64_lia.
Qed.

Lemma score_Least_negates_four : score 4 config.Least = - 4.
Proof. rewrite score_Least_negates; [reflexivity | by vm_compute]. Defined.

(** ** [NormalizeScore] *)

(** [NormalizeScore] writes scores only: the list keeps its length, its
    order and every node name, whatever the raw scores are. *)
Theorem NormalizeScore_keeps_names (scores : framework.NodeScoreList) :
  map framework.Name (NormalizeScore scores) = map framework.Name scores.
Proof.
  unfold NormalizeScore. destruct (highest_lowest scores) as [highest lowest].
  rewrite map_map. apply map_ext. intros nodeScore.
  by destruct (sub64 highest lowest =? 0).
Qed.

(** Overflow or not, every element that holds the lowest raw score of an
    [int64] list leaves [NormalizeScore] with exactly [MinNodeScore]. *)
Theorem NormalizeScore_lowest_is_min (scores : framework.NodeScoreList) (lo : Z) :
  raw_int64 scores ->
  is_lowest lo scores ->
  forall i nodeScore,
    scores !! i = Some nodeScore ->
    framework.Score nodeScore = lo ->
    framework.Score <$> NormalizeScore scores !! i = Some framework.MinNodeScore.
Proof.
  intros Hint Hlo i nodeScore Hi Hs.
  assert (scores <> []) as Hne by (intros ->; done).
  destruct (lowest_highest_exist scores Hne) as (lo' & hi & Hlo' & Hhi).
  assert (lo' = lo) as ->.
  { destruct Hlo as [[n1 [Hn1 H1]] Hlow]. destruct Hlo' as [[n2 [Hn2 H2]] Hlow'].
    specialize (Hlow _ Hn2). specialize (Hlow' _ Hn1). lia. }
  unfold NormalizeScore. rewrite (highest_lowest_spec scores lo hi Hint Hlo Hhi).
  match goal with |- context [map ?f scores] =>
    change (map f scores) with (f <$> scores) end.
  rewrite list_lookup_fmap, Hi. simpl. f_equal.
  destruct (sub64 (Z.max (- MaxInt64) hi) lo =? 0); simpl; [done |].
  rewrite Hs. unfold sub64 at 1. rewrite Z.sub_diag. reflexivity.
Qed.

Lemma NormalizeScore_lowest_is_min_spread :
  framework.Score <$> NormalizeScore rawSpread61 !! 0%nat = Some framework.MinNodeScore.
Proof.
  apply (NormalizeScore_lowest_is_min rawSpread61 0) with
    (nodeScore := {| framework.Name := "A"; framework.Score := 0 |}).
  - repeat constructor; by vm_compute.
  - split.
    + eexists. split; [apply list_elem_of_here | reflexivity].
    + intros ns Hin. unfold rawSpread61 in Hin. elem_of_literal Hin ltac:(simpl; lia).
  - reflexivity.
  - reflexivity.
Defined.

(** The two shapes of the normalizer's result on a list without overflow. *)
Lemma NormalizeScore_shape scores :
  raw_int64 scores -> spread_fits scores -> scores <> [] ->
  exists lo hi,
    is_lowest lo scores /\ is_highest hi scores
    /\ ((lo = hi /\ NormalizeScore scores = map (with_score framework.MinNodeScore) scores)
        \/ (lo < hi
            /\ (hi - lo) * (framework.MaxNodeScore - framework.MinNodeScore) <= MaxInt64
            /\ NormalizeScore scores = map (rescale lo hi) scores)).
Proof.
  intros Hint Hfit Hne.
  destruct (lowest_highest_exist scores Hne) as (lo & hi & Hlo & Hhi).
  exists lo, hi. split; [done |]. split; [done |].
  pose proof Hlo as [[nl [Hnl Hsl]] Hlow].
  pose proof Hhi as [[nh [Hnh Hsh]] Hhigh].
  pose proof (Hfit _ _ Hnh Hnl) as Hspread. rewrite Hsl, Hsh in Hspread.
  pose proof (Hlow _ Hnh) as Hle. rewrite Hsh in Hle.
  destruct (decide (lo = hi)) as [<- | Hneq].
  - left. split; [done |]. apply (NormalizeScore_constant scores lo).
    + rewrite <- Hsl. unfold raw_int64 in Hint. rewrite Forall_forall in Hint.
      by apply Hint.
    + apply Forall_forall. intros ns Hin.
      specialize (Hlow _ Hin). specialize (Hhigh _ Hin). lia.
  - right. split; [lia |]. split; [done |].
    apply NormalizeScore_rescale; (done || lia).
Qed.

Lemma rescale_monotone lo hi a b :
  lo < hi -> framework.Score a <= framework.Score b ->
  framework.Score (rescale lo hi a) <= framework.Score (rescale lo hi b).
Proof.
  intros Hlt Hab. unfold rescale, framework.MinNodeScore, framework.MaxNodeScore. simpl.
  apply Z.add_le_mono_r, Z.quot_le_mono; lia.
Qed.

(** Without overflow [NormalizeScore] keeps the ranking: a node whose raw
    score is not above another's does not end above it. *)
Theorem NormalizeScore_monotone (scores : framework.NodeScoreList) :
  raw_int64 scores ->
  spread_fits scores ->
  forall i j a b,
    scores !! i = Some a -> scores !! j = Some b ->
    framework.Score a <= framework.Score b ->
    exists a' b',
      NormalizeScore scores !! i = Some a'
      /\ NormalizeScore scores !! j = Some b'
      /\ framework.Score a' <= framework.Score b'.
Proof.
  intros Hint Hfit i j a b Hi Hj Hab.
  assert (scores <> []) as Hne by (intros ->; done).
  destruct (NormalizeScore_shape scores Hint Hfit Hne)
    as (lo & hi & _ & _ & [[_ ->] | (Hlt & _ & ->)]).
  - exists (with_score framework.MinNodeScore a), (with_score framework.MinNodeScore b).
    change (map (with_score framework.MinNodeScore) scores)
      with (with_score framework.MinNodeScore <$> scores).
    rewrite !list_lookup_fmap, Hi, Hj. simpl. by repeat split.
  - exists (rescale lo hi a), (rescale lo hi b).
    change (map (rescale lo hi) scores) with (rescale lo hi <$> scores).
    rewrite !list_lookup_fmap, Hi, Hj. simpl.
    split; [done |]. split; [done |]. by apply rescale_monotone.
Qed.

Lemma rawThree_int64 : raw_int64 rawThree.
Proof. repeat constructor; by vm_compute. Qed.

Lemma rawThree_spread_fits : spread_fits rawThree.
Proof.
  intros a b Ha Hb. unfold rawThree in Ha, Hb.
  repeat (apply elem_of_cons in Ha as [-> | Ha]);
    repeat (apply elem_of_cons in Hb as [-> | Hb]);
    try (by apply elem_of_nil in Ha); try (by apply elem_of_nil in Hb);
    by vm_compute.
Qed.

Lemma NormalizeScore_monotone_rawThree :
  exists a' b',
    NormalizeScore rawThree !! 1%nat = Some a'
    /\ NormalizeScore rawThree !! 2%nat = Some b'
    /\ framework.Score a' <= framework.Score b'.
Proof.
  apply (NormalizeScore_monotone rawThree rawThree_int64 rawThree_spread_fits 1 2
           {| framework.Name := "B"; framework.Score := 13 |}
           {| framework.Name := "C"; framework.Score := 20 |}).
  - reflexivity.
  - reflexivity.
  - by vm_compute.
Defined.

(** Without overflow a second pass of [NormalizeScore] changes nothing. *)
Theorem NormalizeScore_stable (scores : framework.NodeScoreList) :
  raw_int64 scores ->
  spread_fits scores ->
  NormalizeScore (NormalizeScore scores) = NormalizeScore scores.
Proof.
  intros Hint Hfit.
  destruct (decide (scores = [])) as [-> | Hne]; [reflexivity |].
  destruct (NormalizeScore_shape scores Hint Hfit Hne)
    as (lo & hi & Hlo & Hhi & [[_ Heq] | (Hlt & Hspread & Heq)]).
  - rewrite Heq.
    rewrite (NormalizeScore_constant _ framework.MinNodeScore).
    + rewrite map_map. apply map_ext. by intros [name raw].
    + by vm_compute.
    + apply Forall_forall. intros ns Hin.
      by apply list_elem_of_In, in_map_iff in Hin as [ns0 [<- _]].
  - by apply (NormalizeScore_twice scores lo hi).
Qed.

Lemma NormalizeScore_stable_rawThree :
  NormalizeScore (NormalizeScore rawThree) = NormalizeScore rawThree.
Proof. apply NormalizeScore_stable; [exact rawThree_int64 | exact rawThree_spread_fits]. Defined.

Lemma affine_lowest k c scores lo :
  0 < k -> is_lowest lo scores -> is_lowest (k * lo + c) (affine k c scores).
Proof.
  intros Hk [[nl [Hnl Hsl]] Hlow]. split.
  - exists (with_score (k * framework.Score nl + c) nl). split; [| simpl; by rewrite Hsl].
    unfold affine. apply list_elem_of_In, in_map_iff. exists nl.
    split; [done | by apply list_elem_of_In].
  - intros ns Hin. unfold affine in Hin.
    apply list_elem_of_In, in_map_iff in Hin as [ns0 [<- Hin]]. simpl.
    apply list_elem_of_In, Hlow in Hin. nia.
Qed.

Lemma affine_highest k c scores hi :
  0 < k -> is_highest hi scores -> is_highest (k * hi + c) (affine k c scores).
Proof.
  intros Hk [[nh [Hnh Hsh]] Hhigh]. split.
  - exists (with_score (k * framework.Score nh + c) nh). split; [| simpl; by rewrite Hsh].
    unfold affine. apply list_elem_of_In, in_map_iff. exists nh.
    split; [done | by apply list_elem_of_In].
  - intros ns Hin. unfold affine in Hin.
    apply list_elem_of_In, in_map_iff in Hin as [ns0 [<- Hin]]. simpl.
    apply list_elem_of_In, Hhigh in Hin. nia.
Qed.

(** The normalized scores depend on the raw scores only up to a positive
    scale and a shift: replacing every raw score [x] by [k * x + c] with
    [k > 0] gives the same normalized list, as long as the transformed
    scores are [int64] and their spread does not overflow. *)
Theorem NormalizeScore_affine (scores : framework.NodeScoreList) (k c : Z) :
  0 < k ->
  raw_int64 scores ->
  raw_int64 (affine k c scores) ->
  spread_fits (affine k c scores) ->
  NormalizeScore (affine k c scores) = NormalizeScore scores.
Proof.
  intros Hk Hint Hint' Hfit'.
  destruct (decide (scores = [])) as [-> | Hne]; [reflexivity |].
  destruct (lowest_highest_exist scores Hne) as (lo & hi & Hlo & Hhi).
  pose proof (affine_lowest k c scores lo Hk Hlo) as Hlo'.
  pose proof (affine_highest k c scores hi Hk Hhi) as Hhi'.
  assert (lo <= hi) as Hle.
  { destruct Hlo as [[nl [Hnl Hsl]] _]. destruct Hhi as [_ Hhigh].
    specialize (Hhigh _ Hnl). lia. }
  assert ((k * hi + c - (k * lo + c))
            * (framework.MaxNodeScore - framework.MinNodeScore) <= MaxInt64) as Hspread'.
  { destruct Hlo' as [[nl [Hnl Hsl]] _]. destruct Hhi' as [[nh [Hnh Hsh]] _].
    rewrite <- Hsl, <- Hsh. by apply Hfit'. }
  unfold framework.MaxNodeScore, framework.MinNodeScore in Hspread'.
  destruct (decide (lo = hi)) as [<- | Hneq].
  - assert (forall ns, ns ∈ scores -> framework.Score ns = lo) as Hall.
    { intros ns Hin. destruct Hlo as [_ Hlow]. destruct Hhi as [_ Hhigh].
      specialize (Hlow _ Hin). specialize (Hhigh _ Hin). lia. }
    rewrite (NormalizeScore_constant scores lo).
    + rewrite (NormalizeScore_constant (affine k c scores) (k * lo + c)).
      * unfold affine. rewrite map_map. apply map_ext. by intros [name raw].
      * destruct Hlo' as [[nl [Hnl <-]] _].
        unfold raw_int64 in Hint'. rewrite Forall_forall in Hint'. by apply Hint'.
      * apply Forall_forall. intros ns Hin. unfold affine in Hin.
        apply list_elem_of_In, in_map_iff in Hin as [ns0 [<- Hin]]. simpl.
        apply list_elem_of_In, Hall in Hin. by rewrite Hin.
    + destruct Hlo as [[nl [Hnl <-]] _].
      unfold raw_int64 in Hint. rewrite Forall_forall in Hint. by apply Hint.
    + by apply Forall_forall.
  - rewrite (NormalizeScore_rescale scores lo hi); [| done | done | done | lia |].
    + rewrite (NormalizeScore_rescale (affine k c scores) (k * lo + c) (k * hi + c));
        [| done | done | done | nia | done].
      unfold affine. rewrite map_map. apply map_ext. intros [name raw].
      unfold rescale, with_score, framework.MaxNodeScore, framework.MinNodeScore. simpl.
      f_equal. f_equal.
      replace ((k * raw + c - (k * lo + c)) * (100 - 0))
        with (k * ((raw - lo) * (100 - 0))) by lia.
      replace (k * hi + c - (k * lo + c)) with (k * (hi - lo)) by lia.
      apply Z.quot_mul_cancel_l; lia.
    + unfold framework.MaxNodeScore, framework.MinNodeScore. nia.
Qed.

Lemma NormalizeScore_affine_rawThree :
  NormalizeScore (affine 1024 (-500) rawThree) = NormalizeScore rawThree.
Proof.
  apply NormalizeScore_affine.
  - lia.
  - exact rawThree_int64.
  - repeat constructor; by vm_compute.
  - intros a b Ha Hb. unfold affine, rawThree in Ha, Hb. simpl in Ha, Hb.
    repeat (apply elem_of_cons in Ha as [-> | Ha]);
      repeat (apply elem_of_cons in Hb as [-> | Hb]);
      try (by apply elem_of_nil in Ha); try (by apply elem_of_nil in Hb);
      by vm_compute.
Defined.
